(** * Query understanding and response selection of the voice bot

    A shallow embedding of
      - [modules/intent_recognizer.py]  (IntentRecognizer),
      - [modules/response_generator.py] (ResponseGenerator and
        AdvancedResponseGenerator),
      - [modules/database.py]           (Database.get_faq_by_keywords),
      - [config/settings.py]            (Config),
      - [main.py]                       (VoiceBot.process_text_input),
    followed by the properties established about them.

    Conventions.
      - A Python [str] is a [string]: a sequence of code points below 256
        (Latin-1).  On that range [str.lower], [str.split], [str.strip] and
        the classes [\d], [\w] of the [re] module are modelled exactly.
      - A Python [float] that only ever holds sums of 1.0 and 0.5 is a
        rational [Q]; the quotient [score / 3.0] is the exact rational.
      - A Python [dict] is a [gmap]; a dict that is iterated in insertion
        order is the list of its items.
      - The conversation context, a dict that is shared by reference, lives
        in an explicit heap; entity dicts are passed by value.  Raised
        exceptions are values of [result].
      - What is written to standard output by [print] is not modelled. *)

From Stdlib Require Import Ascii QArith Qminmax Lqa.
From stdpp Require Import gmap strings list fin_maps.

Local Open Scope string_scope.

(* ===================================================================== *)
(** ** Python strings                                                     *)
(* ===================================================================== *)

Module PyStr.

Definition code (c : ascii) : nat := nat_of_ascii c.

Definition in_range (lo hi : nat) (c : ascii) : bool :=
  (lo <=? code c)%nat && (code c <=? hi)%nat.

(** [\d] on Latin-1: the ten ASCII digits. *)
Definition is_digit (c : ascii) : bool := in_range 48 57 c.

Definition is_upper (c : ascii) : bool := in_range 65 90 c.
Definition is_lower (c : ascii) : bool := in_range 97 122 c.

(** [\w] on Latin-1: what [str.isalnum] accepts, and the underscore. *)
Definition is_word (c : ascii) : bool :=
  is_digit c || is_upper c || is_lower c || in_range 95 95 c
  || in_range 170 170 c || in_range 178 179 c || in_range 181 181 c
  || in_range 185 186 c || in_range 188 190 c
  || in_range 192 214 c || in_range 216 246 c || in_range 248 255 c.

(** Whitespace as [str.split()] and [str.strip()] see it. *)
Definition is_space (c : ascii) : bool :=
  in_range 9 13 c || in_range 28 32 c || in_range 133 133 c
  || in_range 160 160 c.

(** [str.lower] on one code point: A-Z and the Latin-1 capitals
    U+00C0..U+00DE (without the multiplication sign) move up by 32. *)
Definition lower_char (c : ascii) : ascii :=
  if is_upper c || in_range 192 214 c || in_range 216 222 c
  then ascii_of_nat (code c + 32) else c.

Fixpoint lower (s : string) : string :=
  match s with
  | EmptyString => EmptyString
  | String c s' => String (lower_char c) (lower s')
  end.

(** [sub in s] *)
Fixpoint contains (sub s : string) : bool :=
  String.prefix sub s ||
  match s with
  | EmptyString => false
  | String _ s' => contains sub s'
  end.

(** [s.split()]: the maximal runs of non-whitespace characters.
    [cur] is the run being read. *)
Fixpoint split_from (cur : string) (s : string) : list string :=
  match s with
  | EmptyString => if String.eqb cur "" then [] else [cur]
  | String c s' =>
      if is_space c
      then (if String.eqb cur "" then [] else [cur]) ++ split_from "" s'
      else split_from (cur ++ String c "") s'
  end.

Definition split (s : string) : list string := split_from "" s.

Fixpoint lstrip (s : string) : string :=
  match s with
  | String c s' => if is_space c then lstrip s' else s
  | EmptyString => EmptyString
  end.

(** [rstrip] keeps a character when it is not whitespace or when something
    is kept after it. *)
Fixpoint rstrip (s : string) : string :=
  match s with
  | EmptyString => EmptyString
  | String c s' =>
      match rstrip s' with
      | EmptyString => if is_space c then EmptyString else String c EmptyString
      | r => String c r
      end
  end.

Definition strip (s : string) : string := rstrip (lstrip s).

(** [s[:n]] *)
Fixpoint take (n : nat) (s : string) : string :=
  match n, s with
  | S n', String c s' => String c (take n' s')
  | _, _ => EmptyString
  end.

Definition head (s : string) : option ascii :=
  match s with String c _ => Some c | EmptyString => None end.

(** [s[n:]] *)
Fixpoint drop (n : nat) (s : string) : string :=
  match n, s with
  | S n', String _ s' => drop n' s'
  | _, _ => s
  end.

(** [s.endswith(suffix)] *)
Fixpoint endswith (s suffix : string) : bool :=
  String.eqb s suffix ||
  match s with
  | EmptyString => false
  | String _ s' => endswith s' suffix
  end.

End PyStr.

(* ===================================================================== *)
(** ** The fragment of [re] that the program uses                          *)
(* ===================================================================== *)

(** The patterns of the program are sequences of word-boundary assertions
    [\b] and greedy repetitions of a one-character class (a literal being a
    class taken exactly once).  The matcher below is the backtracking
    matcher of [re] restricted to that fragment. *)
Module Re.
Import PyStr.

Inductive item :=
| WordB                                                (* \b *)
| Rep (cls : ascii -> bool) (lo : nat) (hi : option nat). (* cls{lo,hi} *)

Definition Lit (c : ascii) : item := Rep (Ascii.eqb c) 1 (Some 1).
Definition Plus (cls : ascii -> bool) : item := Rep cls 1 None.

Definition is_word_opt (c : option ascii) : bool :=
  match c with Some c => is_word c | None => false end.

(** [\b] holds between [prev] and the first character of [s] when exactly
    one side is a word character; a string edge counts as a non-word. *)
Definition at_boundary (prev : option ascii) (s : string) : bool :=
  xorb (is_word_opt prev) (is_word_opt (head s)).

Definition can_take (hi : option nat) : bool :=
  match hi with Some 0 => false | _ => true end.

Definition dec (hi : option nat) : option nat :=
  match hi with Some n => Some (pred n) | None => None end.

(** [match_here re prev s]: the length of the match of [re] that the
    backtracking search finds first at the start of [s], [prev] being the
    character before it. *)
Fixpoint match_here (re : list item) (prev : option ascii) (s : string)
  {struct re} : option nat :=
  match re with
  | [] => Some 0
  | WordB :: re' =>
      if at_boundary prev s then match_here re' prev s else None
  | Rep cls lo hi :: re' =>
      (fix rep (lo : nat) (hi : option nat) (prev : option ascii)
           (s : string) {struct s} : option nat :=
         let stop := if (lo =? 0)%nat then match_here re' prev s else None in
         match s with
         | String c s' =>
             if cls c && can_take hi then
               match rep (pred lo) (dec hi) (Some c) s' with
               | Some n => Some (S n)
               | None => stop
               end
             else stop
         | EmptyString => stop
         end) lo hi prev s
  end.

(** [re.search(re, s)] as a truth value: some position matches. *)
Fixpoint search_from (re : list item) (prev : option ascii) (s : string)
  : bool :=
  match match_here re prev s with
  | Some _ => true
  | None =>
      match s with
      | EmptyString => false
      | String c s' => search_from re (Some c) s'
      end
  end.

Definition search (re : list item) (s : string) : bool :=
  search_from re None s.

(** [re.findall(re, s)] for a pattern without groups: the matches from
    left to right, the scan resuming where a match ended.  [skip] counts
    the characters of the last match still to be passed.  In this fragment
    a position whose first match is empty has no other match, so stepping
    one character after an empty match is what [re] does. *)
Fixpoint findall_from (re : list item) (prev : option ascii) (s : string)
  (skip : nat) : list string :=
  match s with
  | EmptyString =>
      match skip with
      | 0 => match match_here re prev s with
             | Some _ => [EmptyString]
             | None => []
             end
      | S _ => []
      end
  | String c s' =>
      match skip with
      | S k => findall_from re (Some c) s' k
      | 0 =>
          match match_here re prev s with
          | Some n => take n s :: findall_from re (Some c) s' (pred n)
          | None => findall_from re (Some c) s' 0
          end
      end
  end.

Definition findall (re : list item) (s : string) : list string :=
  findall_from re None s 0.

(** [re.escape(kw)] used as a pattern: every character is a literal. *)
Fixpoint escape (kw : string) : list item :=
  match kw with
  | EmptyString => []
  | String c kw' => Lit c :: escape kw'
  end.

End Re.

(* ===================================================================== *)
(** ** Exceptions, values and the heap                                     *)
(* ===================================================================== *)

(** The exceptions the modelled code can raise.  [APIError] stands for
    whatever the call to the completion service raises, [ServiceError] for
    whatever the constructor of a speech or audio component, or
    [os.makedirs], raises. *)
Inductive exn :=
| KeyError (key : string)
| IndexError
| ValueError (msg : string)
| AttributeError
| NotImplementedError (msg : string)
| RecursionError
| APIError
| ServiceError (service : string).

Inductive result (A : Type) :=
| Ok (a : A)
| Raise (e : exn).
Arguments Ok {A} a.
Arguments Raise {A} e.

(** [Dict[str, List[str]]], the entity sets. *)
Abbreviation Entities := (gmap string (list string)).

(** The values stored in a conversation context. *)
Inductive value :=
| VStr (s : string)
| VEntities (e : Entities).

#[global] Instance value_eq_dec : EqDecision value.
Proof. solve_decision. Defined.

(** The conversation context, a [dict] with string keys. *)
Abbreviation Context := (gmap string value).

(** Truth value of a Python object of these types. *)
Definition truthy (v : option value) : bool :=
  match v with
  | None => false
  | Some (VStr s) => negb (String.eqb s "")
  | Some (VEntities e) => negb (bool_decide (e = ∅))
  end.

(** Dict objects that are passed around by reference. *)
Definition loc := positive.
Abbreviation Heap := (gmap loc Context).

Definition deref (h : Heap) (l : loc) : Context := default ∅ (h !! l).

(** [d[k] = v] through the reference [l]. *)
Definition setitem (h : Heap) (l : loc) (k : string) (v : value) : Heap :=
  <[l := <[k := v]> (deref h l)]> h.

(** A new empty dict [{}]. *)
Definition alloc (h : Heap) : loc * Heap :=
  let l := fresh (dom h) in (l, <[l := ∅]> h).

(* ===================================================================== *)
(** ** config/settings.py                                                 *)
(* ===================================================================== *)

Module Config.

Definition INTENT_KEYWORDS : list (string * list string) :=
  [ ("greeting", ["hello"; "hi"; "hey"; "good morning"; "good afternoon";
                  "good evening"]);
    ("product_info", ["product"; "item"; "price"; "cost"; "available";
                      "stock"]);
    ("order_status", ["order"; "delivery"; "shipping"; "track"; "status"]);
    ("account", ["account"; "profile"; "login"; "password"; "reset"]);
    ("support", ["help"; "support"; "issue"; "problem"; "complaint"]);
    ("farewell", ["bye"; "goodbye"; "thanks"; "thank you"; "exit"; "quit"]) ].

Definition RESPONSE_TEMPLATES : gmap string (list string) :=
  list_to_map
  [ ("greeting",
      [ "Hello! How can I assist you today?";
        "Hi there! What can I do for you?";
        "Welcome! I'm here to help you." ]);
    ("product_info",
      [ "I can help you with product information. Which product are you interested in?";
        "Sure! Let me get you the product details. Can you specify the product name?" ]);
    ("order_status",
      [ "I can check your order status. Could you provide your order number?";
        "Let me help you track your order. What's your order ID?" ]);
    ("account",
      [ "I can assist with account-related queries. What do you need help with?";
        "I'm here to help with your account. Please describe your issue." ]);
    ("support",
      [ "I'm sorry you're experiencing an issue. Can you describe the problem in detail?";
        "I'm here to help resolve your issue. What seems to be the problem?" ]);
    ("farewell",
      [ "Thank you for contacting us! Have a great day!";
        "Goodbye! Feel free to reach out if you need anything else.";
        "It was nice helping you. Take care!" ]);
    ("unknown",
      [ "I'm not sure I understand. Could you please rephrase that?";
        "I didn't quite catch that. Can you provide more details?";
        "I'm still learning. Could you ask that in a different way?" ]) ].

(** The class attributes the modelled code reads, as they stand when it
    runs: the credentials come from the environment, the two tables are
    the ones above unless the deployment changes them. *)
Record t := {
  GOOGLE_APPLICATION_CREDENTIALS : option string;
  intent_keywords : list (string * list string);
  response_templates : gmap string (list string)
}.

Definition load (credentials : option string) : t :=
  {| GOOGLE_APPLICATION_CREDENTIALS := credentials;
     intent_keywords := INTENT_KEYWORDS;
     response_templates := RESPONSE_TEMPLATES |}.

(** [Config.validate()]; [path_exists] is [os.path.exists]. *)
Definition validate (path_exists : string -> bool) (cls : t) : result bool :=
  match GOOGLE_APPLICATION_CREDENTIALS cls with
  | None => Raise (ValueError "GOOGLE_APPLICATION_CREDENTIALS not set in environment")
  | Some path =>
      if String.eqb path "" then
        Raise (ValueError "GOOGLE_APPLICATION_CREDENTIALS not set in environment")
      else if negb (path_exists path) then
        Raise (ValueError ("Google credentials file not found at: " ++ path))
      else Ok true
  end.

End Config.

(* ===================================================================== *)
(** ** modules/intent_recognizer.py                                       *)
(* ===================================================================== *)

Definition Qlt_bool (x y : Q) : bool := negb (Qle_bool y x).

Module IntentRecognizer.
Import PyStr Re.

(** The object: its keyword table and the reference held in
    [self.context]. *)
Record t := {
  intent_keywords : list (string * list string);
  context : loc
}.

(** [__init__] *)
Definition init (cfg : Config.t) (h : Heap) : t * Heap :=
  let '(l, h') := alloc h in
  ({| intent_keywords := Config.intent_keywords cfg; context := l |}, h').

(** [r'\b' + re.escape(keyword) + r'\b'] *)
Definition word_pattern (keyword : string) : list item :=
  WordB :: escape keyword ++ [WordB].

(** The inner loop of [recognize_intent]: the score of one intent. *)
Definition keyword_step (text_lower : string) (score : Q) (keyword : string) : Q :=
  if contains keyword text_lower then
    let score := (score + 1)%Q in
    if search (word_pattern keyword) text_lower
    then (score + (1 # 2))%Q
    else score
  else score.

Definition intent_score (text_lower : string) (keywords : list string) : Q :=
  fold_left (keyword_step text_lower) keywords 0%Q.

(** The outer loop: [intent_scores], in insertion order. *)
Definition intent_step (text_lower : string)
    (intent_scores : list (string * Q)) (entry : string * list string)
  : list (string * Q) :=
  let score := intent_score text_lower (snd entry) in
  if Qlt_bool 0 score then intent_scores ++ [(fst entry, score)]
  else intent_scores.

Definition score_intents (self : t) (text_lower : string) : list (string * Q) :=
  fold_left (intent_step text_lower) (intent_keywords self) [].

(** [max(items, key=lambda x: x[1])] continued from a running maximum:
    a later item replaces it only when its key is strictly greater. *)
Fixpoint max_by_score (best : string * Q) (items : list (string * Q))
  : string * Q :=
  match items with
  | [] => best
  | x :: items' =>
      max_by_score (if Qlt_bool (snd best) (snd x) then x else best) items'
  end.

Definition recognize_intent (self : t) (text : string) : string * Q :=
  if String.eqb text "" then ("unknown", 0%Q)
  else
    let text_lower := lower text in
    match score_intents self text_lower with
    | first :: rest =>
        let best_intent := max_by_score first rest in
        (fst best_intent, Qmin (snd best_intent / 3) 1)
    | [] => ("unknown", 0%Q)
    end.

Definition cls_local (c : ascii) : bool :=
  is_upper c || is_lower c || is_digit c
  || Ascii.eqb c "." || Ascii.eqb c "_" || Ascii.eqb c "%"
  || Ascii.eqb c "+" || Ascii.eqb c "-".

Definition cls_domain (c : ascii) : bool :=
  is_upper c || is_lower c || is_digit c
  || Ascii.eqb c "." || Ascii.eqb c "-".

Definition cls_tld (c : ascii) : bool :=
  is_upper c || Ascii.eqb c "|" || is_lower c.

Definition cls_sep (c : ascii) : bool :=
  Ascii.eqb c "/" || Ascii.eqb c "-".

(** [\b\d+\b] *)
Definition numbers_re : list item := [WordB; Plus is_digit; WordB].

(** [\b[A-Za-z0-9._%+-]+@[A-Za-z0-9.-]+\.[A-Z|a-z]{2,}\b] *)
Definition emails_re : list item :=
  [WordB; Plus cls_local; Lit "@"; Plus cls_domain; Lit ".";
   Rep cls_tld 2 None; WordB].

(** [\b\d{1,2}[/-]\d{1,2}[/-]\d{2,4}\b] *)
Definition dates_re : list item :=
  [WordB; Rep is_digit 1 (Some 2); Rep cls_sep 1 (Some 1);
   Rep is_digit 1 (Some 2); Rep cls_sep 1 (Some 1);
   Rep is_digit 2 (Some 4); WordB].

Definition extract_entities (text : string) : Entities :=
  let entities : Entities :=
    <["products" := []]> (<["dates" := []]> (<["emails" := []]>
      (<["numbers" := []]> ∅))) in
  let entities := <["numbers" := findall numbers_re text]> entities in
  let entities := <["emails" := findall emails_re text]> entities in
  let entities := <["dates" := findall dates_re text]> entities in
  filter (fun kv => kv.2 ≠ []) entities.

(** [update_context] assigns both items in the dict [self.context] refers
    to; the dict itself stays the same object. *)
Definition update_context (self : t) (intent : string) (entities : Entities)
    (h : Heap) : Heap :=
  let h := setitem h (context self) "last_intent" (VStr intent) in
  setitem h (context self) "last_entities" (VEntities entities).

(** [get_context] returns the reference held in [self.context]. *)
Definition get_context (self : t) : loc := context self.

(** [clear_context] binds [self.context] to a new empty dict. *)
Definition clear_context (self : t) (h : Heap) : t * Heap :=
  let '(l, h') := alloc h in
  ({| intent_keywords := intent_keywords self; context := l |}, h').

(** The dict returned by [analyze_query]; its ['context'] entry is the
    reference [self.context] itself. *)
Record analysis := {
  a_text : string;
  a_intent : string;
  a_confidence : Q;
  a_entities : Entities;
  a_context : loc
}.

Definition analyze_query (self : t) (text : string) (h : Heap)
  : analysis * Heap :=
  let '(intent, confidence) := recognize_intent self text in
  let entities := extract_entities text in
  let h := update_context self intent entities h in
  ({| a_text := text; a_intent := intent; a_confidence := confidence;
      a_entities := entities; a_context := context self |}, h).

End IntentRecognizer.

(* ===================================================================== *)
(** ** modules/database.py                                                *)
(* ===================================================================== *)

Module Database.
Import PyStr.

(** A row of the [faqs] table, its [keywords] column decoded by
    [json.loads]. *)
Record faq_row := {
  id : Z;
  question : string;
  answer : string;
  category : string;
  keywords : list string;
  usage_count : Z
}.

(** The database: its kind and the rows of [faqs] in the order
    [SELECT * FROM faqs] returns them. *)
Record t := {
  db_type : string;
  faqs : list faq_row
}.

(** The dict built for the best match. *)
Record faq_match := {
  m_id : Z;
  m_question : string;
  m_answer : string;
  m_category : string;
  m_usage_count : Z
}.

Definition match_of (row : faq_row) : faq_match :=
  {| m_id := id row; m_question := question row; m_answer := answer row;
     m_category := category row; m_usage_count := usage_count row |}.

(** [get_connection]: only SQLite is supported. *)
Definition get_connection (self : t) : result unit :=
  if String.eqb (db_type self) "sqlite" then Ok tt
  else Raise (NotImplementedError "PostgreSQL support not yet implemented").

(** [sum(1 for kw in keywords
          if any(faq_kw in kw.lower() for faq_kw in faq_keywords))] *)
Definition score (keywords : list string) (faq_keywords : list string) : nat :=
  length (filter (fun kw =>
      Is_true (existsb (fun faq_kw => contains faq_kw (lower kw)) faq_keywords))
    keywords).

(** One turn of the loop over the rows, on [(best_match, best_score)]. *)
Definition faq_step (keywords : list string)
    (best : option faq_match * nat) (row : faq_row)
  : option faq_match * nat :=
  let score := score keywords (Database.keywords row) in
  if (best.2 <? score)%nat then (Some (match_of row), score) else best.

(** [UPDATE faqs SET usage_count = usage_count + 1 WHERE id = ?] *)
Definition increment_usage (key : Z) (rows : list faq_row) : list faq_row :=
  map (fun row =>
         if (id row =? key)%Z
         then {| id := id row; question := question row;
                 answer := answer row; category := category row;
                 keywords := keywords row;
                 usage_count := (usage_count row + 1)%Z |}
         else row) rows.

Definition get_faq_by_keywords (keywords : list string) (self : t)
  : result (option faq_match) * t :=
  match get_connection self with
  | Raise e => (Raise e, self)
  | Ok _ =>
      let '(best_match, _) :=
        fold_left (faq_step keywords) (faqs self) (None, 0%nat) in
      match best_match with
      | Some m =>
          (Ok (Some m),
           {| db_type := db_type self;
              faqs := increment_usage (m_id m) (faqs self) |})
      | None => (Ok None, self)
      end
  end.

(** The id an [INTEGER PRIMARY KEY AUTOINCREMENT] column gives the next
    row of a table from which nothing is ever deleted: one more than the
    greatest id in it. *)
Definition next_id (rows : list faq_row) : Z :=
  (1 + foldr (fun row acc => Z.max (id row) acc) 0 rows)%Z.

(** [add_faq]: the new row comes last in the table, its [usage_count]
    is the column default 0, and its keywords are stored as JSON text,
    which [json.loads] reads back as the same list. *)
Definition add_faq (question answer category : string)
    (keywords : list string) (self : t) : result unit * t :=
  match get_connection self with
  | Raise e => (Raise e, self)
  | Ok _ =>
      (Ok tt,
       {| db_type := db_type self;
          faqs := faqs self ++
                  [{| id := next_id (faqs self); question := question;
                      answer := answer; category := category;
                      keywords := keywords; usage_count := 0 |}] |})
  end.

(** The rows that [_insert_default_faqs] puts in a table found empty when
    the database is opened, with the ids SQLite gives them. *)
Definition default_faqs : list faq_row :=
  [ {| id := 1; question := "What are your business hours?";
       answer := "We are available 24/7 to assist you with your queries.";
       category := "general";
       keywords := ["hours"; "business"; "available"; "open"];
       usage_count := 0 |};
    {| id := 2; question := "How can I track my order?";
       answer := "You can track your order by providing your order number. "
                 ++ "We will fetch the latest status for you.";
       category := "orders";
       keywords := ["track"; "order"; "status"; "shipping"];
       usage_count := 0 |};
    {| id := 3; question := "What is your return policy?";
       answer := "We offer a 30-day return policy on most items. "
                 ++ "Please contact customer service with your order details.";
       category := "returns";
       keywords := ["return"; "refund"; "policy"; "exchange"];
       usage_count := 0 |};
    {| id := 4; question := "How do I reset my password?";
       answer := "You can reset your password by clicking the "
                 ++ String (ascii_of_nat 34) "Forgot Password"
                 ++ String (ascii_of_nat 34)
                      " link on the login page or contact support.";
       category := "account";
       keywords := ["password"; "reset"; "account"; "login"];
       usage_count := 0 |};
    {| id := 5; question := "What payment methods do you accept?";
       answer := "We accept credit cards, debit cards, PayPal, "
                 ++ "and other digital payment methods.";
       category := "payment";
       keywords := ["payment"; "credit"; "card"; "paypal"; "pay"];
       usage_count := 0 |} ].

End Database.

(* ===================================================================== *)
(** ** The [random] module                                                *)
(* ===================================================================== *)

(** The generator is a tape of draws still to come; [random.choice] uses
    one draw to index a non-empty sequence, so that every member can be
    chosen, and raises on an empty one without drawing. *)
Module Random.

Definition choice {A : Type} (seq : list A) (tape : list nat)
  : result A * list nat :=
  match seq with
  | [] => (Raise IndexError, tape)
  | x :: _ => (Ok (nth (hd 0%nat tape mod length seq) seq x), tl tape)
  end.

End Random.

(* ===================================================================== *)
(** ** modules/response_generator.py                                      *)
(* ===================================================================== *)

Module ResponseGenerator.
Import PyStr.

(** An entry of [conversation_history]; ['method'] is only set by the
    generative stage. *)
Record hist_entry := {
  h_intent : string;
  h_response : string;
  h_method : option string
}.

(** What [ai_client.chat.completions.create] does for a system and a user
    prompt: it raises, or returns choices whose message content may be
    missing. *)
Inductive completion :=
| CallRaises
| Choices (contents : list (option string)).

Definition client := string -> string -> completion.

(** The generator object; the last three fields belong to
    [AdvancedResponseGenerator]. *)
Record t := {
  response_templates : gmap string (list string);
  conversation_history : list hist_entry;
  use_ai_model : bool;
  ai_client : option client;
  database : option Database.t
}.

(** The state a call works on: the object and the random generator. *)
Record world := {
  self : t;
  rng : list nat
}.

(** Computations that read and update the state and may raise. *)
Definition M (A : Type) : Type := world -> result A * world.

Definition ret {A} (a : A) : M A := fun w => (Ok a, w).
Definition raise {A} (e : exn) : M A := fun w => (Raise e, w).
Definition bind {A B} (m : M A) (k : A -> M B) : M B :=
  fun w => match m w with
           | (Ok a, w') => k a w'
           | (Raise e, w') => (Raise e, w')
           end.
(** [try: m except Exception: handler] *)
Definition try_except {A} (m : M A) (handler : exn -> M A) : M A :=
  fun w => match m w with
           | (Ok a, w') => (Ok a, w')
           | (Raise e, w') => handler e w'
           end.

Notation "x <- m ;; k" := (bind m (fun x => k))
  (at level 100, m at next level, right associativity).

Definition get_self : M t := fun w => (Ok (self w), w).

Definition set_history (hist : list hist_entry) : M unit :=
  fun w =>
    (Ok tt,
     {| self := {| response_templates := response_templates (self w);
                   conversation_history := hist;
                   use_ai_model := use_ai_model (self w);
                   ai_client := ai_client (self w);
                   database := database (self w) |};
        rng := rng w |}).

Definition set_database (db : option Database.t) : M unit :=
  fun w =>
    (Ok tt,
     {| self := {| response_templates := response_templates (self w);
                   conversation_history := conversation_history (self w);
                   use_ai_model := use_ai_model (self w);
                   ai_client := ai_client (self w);
                   database := db |};
        rng := rng w |}).

Definition random_choice {A} (seq : list A) : M A :=
  fun w => let '(r, tape) := Random.choice seq (rng w) in
           (r, {| self := self w; rng := tape |}).

(** [self.conversation_history.append(entry)] *)
Definition append_history (entry : hist_entry) : M unit :=
  me <- get_self ;;
  set_history (conversation_history me ++ [entry]).

(** [ResponseGenerator.__init__] *)
Definition init (cfg : Config.t) : t :=
  {| response_templates := Config.response_templates cfg;
     conversation_history := [];
     use_ai_model := false; ai_client := None; database := None |}.

Definition entities_truthy (entities : option Entities) : bool :=
  match entities with
  | Some e => negb (bool_decide (e = ∅))
  | None => false
  end.

Definition context_truthy (context : option Context) : bool :=
  match context with
  | Some c => negb (bool_decide (c = ∅))
  | None => false
  end.

Definition _enhance_with_entities (response : string) (entities : Entities)
  : string :=
  let response :=
    match entities !! "numbers" with
    | Some (order_num :: _) =>
        response ++ " I see you mentioned order number " ++ order_num ++ "."
    | _ => response
    end in
  match entities !! "emails" with
  | Some (email :: _) => response ++ " I'll send updates to " ++ email ++ "."
  | _ => response
  end.

Definition clarifying_prompt : string :=
  " Is there anything specific about the product you'd like to know?".

Definition _add_context_awareness (response : string) (context : Context)
  : M string :=
  me <- get_self ;;
  if truthy (context !! "last_intent")
     && (0 <? length (conversation_history me))%nat
  then
    let last_intent := context !! "last_intent" in
    if bool_decide (last_intent = Some (VStr "product_info"))
    then ret (response ++ clarifying_prompt)
    else ret response
  else ret response.

(** [self.response_templates.get(intent, self.response_templates['unknown'])]:
    the default is evaluated before the lookup. *)
Definition lookup_templates (intent : string) : M (list string) :=
  me <- get_self ;;
  match response_templates me !! "unknown" with
  | None => raise (KeyError "unknown")
  | Some dflt => ret (default dflt (response_templates me !! intent))
  end.

(** [ResponseGenerator.generate_response] *)
Definition generate_response (intent : string) (entities : option Entities)
    (context : option Context) : M string :=
  templates <- lookup_templates intent ;;
  base_response <- random_choice templates ;;
  let base_response :=
    match entities with
    | Some e =>
        if entities_truthy entities
           && bool_decide (intent ∈ ["order_status"; "product_info"])
        then _enhance_with_entities base_response e
        else base_response
    | None => base_response
    end in
  base_response <-
    match context with
    | Some c =>
        if context_truthy context
        then _add_context_awareness base_response c
        else ret base_response
    | None => ret base_response
    end ;;
  _ <- append_history {| h_intent := intent; h_response := base_response;
                         h_method := None |} ;;
  ret base_response.

(** [get_conversation_history] *)
Definition get_conversation_history : M (list hist_entry) :=
  me <- get_self ;;
  ret (conversation_history me).

(** [clear_history] *)
Definition clear_history : M unit := set_history [].

Definition error_responses : list string :=
  [ "I'm sorry, I'm having trouble processing your request. Could you try again?";
    "Oops! Something went wrong. Please rephrase your question.";
    "I apologize, but I didn't catch that. Can you say it again?" ].

(** [generate_error_response] *)
Definition generate_error_response : M string :=
  random_choice error_responses.

End ResponseGenerator.

Module AdvancedResponseGenerator.
Import PyStr ResponseGenerator.

Definition nl : string := String (ascii_of_nat 10) "".

Definition system_prompt : string :=
  "You are a helpful customer service assistant for a voice bot system." ++ nl ++
  "Your responses should be:" ++ nl ++
  "- Concise and clear (2-3 sentences maximum)" ++ nl ++
  "- Friendly and professional" ++ nl ++
  "- Action-oriented when appropriate" ++ nl ++
  "- Natural for speech synthesis" ++ nl ++
  nl ++
  "Do not use special characters or formatting that would sound awkward when spoken.".

Definition str_truthy (s : option string) : bool :=
  match s with
  | Some s => negb (String.eqb s "")
  | None => false
  end.

(** [AdvancedResponseGenerator.__init__]; [OPENAI_AVAILABLE] tells whether
    the import succeeded, [env_key] is [os.getenv('OPENAI_API_KEY')] and
    [OpenAI] the client constructor. *)
Definition init (cfg : Config.t) (use_ai_model : bool)
    (OPENAI_AVAILABLE : bool) (api_key env_key : option string)
    (OpenAI : string -> result client) (database : option Database.t) : t :=
  let base := ResponseGenerator.init cfg in
  let with_ai (use : bool) (c : option client) :=
    {| response_templates := response_templates base;
       conversation_history := conversation_history base;
       use_ai_model := use; ai_client := c; database := database |} in
  if use_ai_model && OPENAI_AVAILABLE then
    let api_key := if str_truthy api_key then api_key else env_key in
    match api_key with
    | Some key =>
        if str_truthy api_key then
          match OpenAI key with
          | Ok c => with_ai true (Some c)
          | Raise _ => with_ai false None
          end
        else with_ai false None
    | None => with_ai false None
    end
  else with_ai false None.

Section WithRepr.

(** How an f-string renders a dict of entities ([str] of a dict), a
    function of the Python runtime. *)
Variable dict_repr : Entities -> string.

Definition value_str (v : value) : string :=
  match v with
  | VStr s => s
  | VEntities e => dict_repr e
  end.

(** [_check_faq] *)
Definition _check_faq (user_query : string) : M (option string) :=
  me <- get_self ;;
  match database me with
  | None => ret None
  | Some db =>
      try_except
        (let keywords := split (lower user_query) in
         let '(r, db') := Database.get_faq_by_keywords keywords db in
         _ <- set_database (Some db') ;;
         match r with
         | Raise e => raise e
         | Ok (Some faq) => ret (Some (Database.m_answer faq))
         | Ok None => ret None
         end)
        (fun _ => ret None)
  end.

(** The user prompt assembled by [generate_response_ai]. *)
Definition user_prompt (intent user_query : string)
    (entities : option Entities) (context : option Context) : string :=
  let p := "User query: " ++ user_query ++ nl in
  let p := p ++ "Detected intent: " ++ intent ++ nl in
  let p :=
    match entities with
    | Some e =>
        if entities_truthy entities
        then p ++ "Extracted entities: " ++ dict_repr e ++ nl
        else p
    | None => p
    end in
  let p :=
    match context with
    | Some c =>
        match c !! "last_intent" with
        | Some v =>
            if context_truthy context && truthy (Some v)
            then p ++ "Previous intent: " ++ value_str v ++ nl
            else p
        | None => p
        end
    | None => p
    end in
  p ++ nl ++ "Generate a helpful, natural-sounding response:".

(** [response.choices[0].message.content.strip()] *)
Definition completion_text (r : completion) : result string :=
  match r with
  | CallRaises => Raise APIError
  | Choices [] => Raise IndexError
  | Choices (None :: _) => Raise AttributeError
  | Choices (Some content :: _) => Ok (strip content)
  end.

(** [generate_response_ai]; [self_generate_response] is the method
    [self.generate_response] that dynamic dispatch selects. *)
Definition generate_response_ai
    (self_generate_response :
       string -> option Entities -> option Context -> option string -> M string)
    (intent user_query : string) (entities : option Entities)
    (context : option Context) : M string :=
  me <- get_self ;;
  match ai_client me with
  | None => self_generate_response intent entities context None
  | Some create =>
      let user_prompt := user_prompt intent user_query entities context in
      try_except
        (match completion_text (create system_prompt user_prompt) with
         | Raise e => raise e
         | Ok ai_response =>
             _ <- append_history {| h_intent := intent;
                                    h_response := ai_response;
                                    h_method := Some "ai" |} ;;
             ret ai_response
         end)
        (fun _ => ResponseGenerator.generate_response intent entities context)
  end.

(** [AdvancedResponseGenerator.generate_response].  [depth] bounds the
    nesting of calls through [self.generate_response], as the
    interpreter's recursion limit does. *)
Fixpoint generate_response (depth : nat) (intent : string)
    (entities : option Entities) (context : option Context)
    (user_query : option string) {struct depth} : M string :=
  match depth with
  | 0 => raise RecursionError
  | S depth' =>
      me <- get_self ;;
      faq_response <-
        match database me, user_query with
        | Some _, Some q =>
            if str_truthy user_query then _check_faq q else ret None
        | _, _ => ret None
        end ;;
      if str_truthy faq_response then ret (default "" faq_response)
      else
        me <- get_self ;;
        let template_stage :=
          ResponseGenerator.generate_response intent entities context in
        match user_query with
        | Some q =>
            if use_ai_model me && bool_decide (is_Some (ai_client me))
               && str_truthy user_query
            then
              try_except
                (generate_response_ai (generate_response depth')
                   intent q entities context)
                (fun _ => template_stage)
            else template_stage
        | None => template_stage
        end
  end.

End WithRepr.

End AdvancedResponseGenerator.

(* ===================================================================== *)
(** ** main.py                                                            *)
(* ===================================================================== *)

Module VoiceBot.

(** The two components of the bot that take part in text processing. *)
Record t := {
  intent_recognizer : IntentRecognizer.t;
  response_generator : ResponseGenerator.t
}.

(** What the other parts of [__init__] do when the bot starts: the
    constructors of the speech and audio components and [os.makedirs]
    each return or raise. *)
Record startup := {
  new_SpeechToText : result unit;
  new_TextToSpeech : result unit;
  new_AudioRecorder : result unit;
  new_AudioPlayer : result unit;
  makedirs : result unit
}.

(** Their outcomes, in the order [__init__] meets them. *)
Definition startup_outcomes (env : startup) : list (result unit) :=
  [new_SpeechToText env; new_TextToSpeech env; new_AudioRecorder env;
   new_AudioPlayer env; makedirs env].

(** A start in which all of them return. *)
Definition startup_ok : startup :=
  {| new_SpeechToText := Ok tt; new_TextToSpeech := Ok tt;
     new_AudioRecorder := Ok tt; new_AudioPlayer := Ok tt;
     makedirs := Ok tt |}.

(** [__init__]: the configuration is validated, then the components are
    created in turn and the output directory is made; the first exception
    met is raised again by the handler. *)
Definition init (path_exists : string -> bool) (env : startup)
    (cfg : Config.t) (h : Heap) : result (t * Heap) :=
  match Config.validate path_exists cfg with
  | Raise e => Raise e
  | Ok _ =>
  match new_SpeechToText env with
  | Raise e => Raise e
  | Ok _ =>
  match new_TextToSpeech env with
  | Raise e => Raise e
  | Ok _ =>
      let '(recognizer, h') := IntentRecognizer.init cfg h in
      let generator := ResponseGenerator.init cfg in
      match new_AudioRecorder env with
      | Raise e => Raise e
      | Ok _ =>
      match new_AudioPlayer env with
      | Raise e => Raise e
      | Ok _ =>
      match makedirs env with
      | Raise e => Raise e
      | Ok _ =>
          Ok ({| intent_recognizer := recognizer;
                 response_generator := generator |}, h')
      end end end
  end end end.

(** [process_text_input]: the context handed to the generator is the
    dict that ['context'] refers to when the call is made. *)
Definition process_text_input (bot : t) (text : string) (h : Heap)
    (tape : list nat) : result string * t * Heap * list nat :=
  let '(analysis, h') :=
    IntentRecognizer.analyze_query (intent_recognizer bot) text h in
  let '(response_text, w) :=
    ResponseGenerator.generate_response
      (IntentRecognizer.a_intent analysis)
      (Some (IntentRecognizer.a_entities analysis))
      (Some (deref h' (IntentRecognizer.a_context analysis)))
      {| ResponseGenerator.self := response_generator bot;
         ResponseGenerator.rng := tape |} in
  (response_text,
   {| intent_recognizer := intent_recognizer bot;
      response_generator := ResponseGenerator.self w |},
   h', ResponseGenerator.rng w).

(** How a text session ends: the user typed a quit word, or said
    farewell, or [input] found nothing more to read (it raises [EOFError]),
    or processing raised. *)
Inductive session_end :=
| SaidQuit
| SaidFarewell
| EndOfInput
| Crashed (e : exn).

(** The loop of [text_only_session], fed with the lines [input] will
    return; the responses are the ones it prints, in order. *)
Fixpoint text_only_session (inputs : list string) (bot : t) (h : Heap)
    (tape : list nat) : list string * session_end * t * Heap * list nat :=
  match inputs with
  | [] => ([], EndOfInput, bot, h, tape)
  | user_input :: inputs' =>
      if bool_decide (PyStr.lower user_input ∈ ["quit"; "exit"; "q"])
      then ([], SaidQuit, bot, h, tape)
      else
        match process_text_input bot user_input h tape with
        | (Raise e, bot1, h1, tape1) => ([], Crashed e, bot1, h1, tape1)
        | (Ok response, bot1, h1, tape1) =>
            let '(analysis, h2) :=
              IntentRecognizer.analyze_query (intent_recognizer bot1)
                user_input h1 in
            if String.eqb (IntentRecognizer.a_intent analysis) "farewell"
            then ([response], SaidFarewell, bot1, h2, tape1)
            else
              let '(responses, ending, bot2, h3, tape2) :=
                text_only_session inputs' bot1 h2 tape1 in
              (response :: responses, ending, bot2, h3, tape2)
        end
  end.

End VoiceBot.

(* ===================================================================== *)
(** * Vocabulary of the properties                                        *)
(* ===================================================================== *)

Section TemplateVocabulary.
Import PyStr ResponseGenerator.

(** A usable template catalog: the [unknown] entry is there and no entry
    is an empty sequence. *)
Definition catalog_ok (m : gmap string (list string)) : Prop :=
  is_Some (m !! "unknown") /\ forall k l, m !! k = Some l -> l ≠ [].

(** The text chosen and enhanced before the context is looked at. *)
Definition enhanced (intent : string) (entities : option Entities)
    (chosen : string) : string :=
  match entities with
  | Some e =>
      if entities_truthy entities
         && bool_decide (intent ∈ ["order_status"; "product_info"])
      then _enhance_with_entities chosen e
      else chosen
  | None => chosen
  end.

(** The entries [get] returns for an intent. *)
Definition templates_for (m : gmap string (list string)) (intent : string)
  : list string :=
  default (default [] (m !! "unknown")) (m !! intent).

(** What the context adds to the text. *)
Definition context_tail (context : option Context) (hist : list hist_entry)
  : string :=
  match context with
  | Some c =>
      if context_truthy context && truthy (c !! "last_intent")
         && (0 <? length hist)%nat
         && bool_decide (c !! "last_intent" = Some (VStr "product_info"))
      then clarifying_prompt else ""
  | None => ""
  end.

(** The state after a response has been recorded. *)
Definition recorded (w : world) (intent resp : string) (method : option string)
  : world :=
  {| self := {| response_templates := response_templates (self w);
                conversation_history :=
                  conversation_history (self w) ++
                    [{| h_intent := intent; h_response := resp;
                        h_method := method |}];
                use_ai_model := use_ai_model (self w);
                ai_client := ai_client (self w);
                database := database (self w) |};
     rng := rng w |}.

(** A generator as [__init__] leaves it, with the shipped configuration. *)
Definition fresh_world (tape : list nat) : world :=
  {| self := ResponseGenerator.init (Config.load None); rng := tape |}.

(** The same generator after one earlier response. *)
Definition second_turn_world (tape : list nat) : world :=
  recorded (fresh_world tape) "greeting" "Hello! How can I assist you today?" None.

(** A configuration that passes validation and whose catalog has lost
    the [unknown] entry. *)
Definition cfg_without_unknown : Config.t :=
  {| Config.GOOGLE_APPLICATION_CREDENTIALS := Some "credentials.json";
     Config.intent_keywords := Config.INTENT_KEYWORDS;
     Config.response_templates := delete "unknown" Config.RESPONSE_TEMPLATES |}.

(** The generator with the generative stage switched off, as [__init__]
    leaves it when no model is asked for. *)
Definition without_ai (w : world) : world :=
  {| self := {| response_templates := response_templates (self w);
                conversation_history := conversation_history (self w);
                use_ai_model := false;
                ai_client := None;
                database := database (self w) |};
     rng := rng w |}.

(** The state with the database as a lookup left it. *)
Definition with_database (w : world) (db : Database.t) : world :=
  {| self := {| response_templates := response_templates (self w);
                conversation_history := conversation_history (self w);
                use_ai_model := use_ai_model (self w);
                ai_client := ai_client (self w);
                database := Some db |};
     rng := rng w |}.

End TemplateVocabulary.

Section ChainVocabulary.
Import PyStr ResponseGenerator AdvancedResponseGenerator.

Variable dict_repr : Entities -> string.

(** The completion service fails on one request: the call raises, or
    what it returns cannot be read as a text. *)
Definition fails_on (create : client) (system user : string) : Prop :=
  exists e, completion_text (create system user) = Raise e.

(** The request that a call of the advanced [generate_response] sends to
    the completion service, if it sends one, fails.  Nothing is said of
    other requests. *)
Definition generative_call_fails (w : world) (intent : string)
    (entities : option Entities) (context : option Context)
    (user_query : option string) : Prop :=
  forall create q,
    ai_client (self w) = Some create -> user_query = Some q ->
    fails_on create system_prompt
      (user_prompt dict_repr intent q entities context).

(** The knowledge-base stage of the advanced [generate_response]. *)
Definition faq_stage (user_query : option string) : M (option string) :=
  fun w =>
    match database (self w), user_query with
    | Some _, Some q =>
        if str_truthy user_query then _check_faq q else ret None
    | _, _ => ret None
    end w.

(** The stages after it. *)
Definition later_stages (depth : nat) (intent : string)
    (entities : option Entities) (context : option Context)
    (user_query : option string) : M string :=
  fun w =>
    match user_query with
    | Some q =>
        if use_ai_model (self w) && bool_decide (is_Some (ai_client (self w)))
           && str_truthy user_query
        then
          try_except
            (generate_response_ai dict_repr
               (generate_response dict_repr depth) intent q entities context)
            (fun _ => ResponseGenerator.generate_response intent entities context)
        else ResponseGenerator.generate_response intent entities context
    | None => ResponseGenerator.generate_response intent entities context
    end w.

End ChainVocabulary.

Section KnowledgeBaseVocabulary.
Import PyStr Database.

(** The score of a record as the specification words it: the number of
    input tokens of which at least one keyword of the record is a
    substring. *)
Definition overlap (tokens : list string) (row : faq_row) : nat :=
  length (filter (fun token =>
                    Exists (fun kw => contains kw token = true) (keywords row))
                 tokens).

Definition lowercase (token : string) : Prop := lower token = token.

(** What the loop over the rows computes, for any scoring [f]: nothing
    when every row scores 0, otherwise the first row of greatest score. *)
Definition first_best (f : faq_row -> nat) (rows : list faq_row)
    (best : option faq_match * nat) : Prop :=
  match best.1 with
  | None => best.2 = 0%nat /\ Forall (fun r => f r = 0%nat) rows
  | Some m =>
      exists pre row post,
        rows = (pre ++ row :: post)%list /\ m = match_of row /\ best.2 = f row /\
        (0 < f row)%nat /\
        Forall (fun r => (f r < f row)%nat) pre /\
        Forall (fun r => (f r <= f row)%nat) post
  end.

End KnowledgeBaseVocabulary.

Section ClassifierVocabulary.
Import PyStr Re IntentRecognizer.

(** The character that stands before the end of [kw] when [kw] is written
    after [prev]. *)
Fixpoint last_char (prev : option ascii) (kw : string) : option ascii :=
  match kw with
  | EmptyString => prev
  | String c kw' => last_char (Some c) kw'
  end.

(** [kw] stands somewhere in [s] with a word boundary just before it and
    just after it; [prev] is the character before [s]. *)
Fixpoint word_bounded_from (kw : string) (prev : option ascii) (s : string)
  : bool :=
  (at_boundary prev s && String.prefix kw s
   && at_boundary (last_char prev kw) (drop (String.length kw) s))
  || match s with
     | EmptyString => false
     | String c s' => word_bounded_from kw (Some c) s'
     end.

Definition word_bounded (kw text : string) : bool :=
  word_bounded_from kw None text.

(** What one keyword is worth, as the specification words it: 1.0 when it
    occurs as a substring, and 0.5 more when it also matches at word
    boundaries. *)
Definition keyword_value (text_lower kw : string) : Q :=
  if contains kw text_lower
  then (if word_bounded kw text_lower then 1 + (1 # 2) else 1)%Q
  else 0%Q.

(** The score of an intent: the sum over its keywords. *)
Definition spec_score (text_lower : string) (keywords : list string) : Q :=
  fold_right (fun kw acc => (keyword_value text_lower kw + acc)%Q) 0%Q keywords.

(** [intent] is the entry of greatest score under [f], the first such in
    declaration order, and [s] is its score. *)
Definition first_greatest (cfg : list (string * list string))
    (f : list string -> Q) (intent : string) (s : Q) : Prop :=
  exists pre kws post,
    cfg = (pre ++ (intent, kws) :: post)%list /\ s = f kws /\
    Forall (fun e => (f e.2 < s)%Q) pre /\
    Forall (fun e => (f e.2 <= s)%Q) post.

(** C3 as the specification states it, for one text. *)
Definition picks_greatest (self : IntentRecognizer.t) (text : string) : Prop :=
  exists intent s,
    first_greatest (intent_keywords self) (spec_score (lower text)) intent s /\
    (recognize_intent self text).1 = intent /\
    ((recognize_intent self text).2 == Qmin (s / 3) 1)%Q.

(** The recognizer of the shipped configuration. *)
Definition shipped_recognizer (l : loc) : IntentRecognizer.t :=
  {| intent_keywords := Config.INTENT_KEYWORDS; context := l |}.

(** The intents with a positive score, with their scores, in declaration
    order: the items of [intent_scores]. *)
Definition positives (text_lower : string) (cfg : list (string * list string))
  : list (string * Q) :=
  filter (fun p => Qlt_bool 0 p.2 = true)
         (map (fun e => (e.1, intent_score text_lower e.2)) cfg).

End ClassifierVocabulary.

Section EntityVocabulary.
Import PyStr Re IntentRecognizer.

(** The digits [s] starts with. *)
Fixpoint digit_run (s : string) : string :=
  match s with
  | String c s' => if is_digit c then String c (digit_run s') else EmptyString
  | EmptyString => EmptyString
  end.

(** What follows them. *)
Fixpoint after_digits (s : string) : string :=
  match s with
  | String c s' => if is_digit c then after_digits s' else s
  | EmptyString => EmptyString
  end.

Definition is_digit_opt (c : option ascii) : bool :=
  match c with Some c => is_digit c | None => false end.

(** The numbers as the specification words them: every maximal run of
    decimal digits, a run starting where a digit follows a non-digit or the
    start of the text. *)
Fixpoint digit_runs (prev : option ascii) (s : string) : list string :=
  match s with
  | EmptyString => []
  | String c s' =>
      (if is_digit c && negb (is_digit_opt prev) then [digit_run s] else [])
      ++ digit_runs (Some c) s'
  end.

(** The maximal runs of decimal digits that have no word character (letter,
    digit or underscore) next to them on either side. *)
Fixpoint isolated_digit_runs (prev : option ascii) (s : string) : list string :=
  match s with
  | EmptyString => []
  | String c s' =>
      (if is_digit c && negb (is_word_opt prev)
          && negb (is_word_opt (head (after_digits s)))
       then [digit_run s] else [])
      ++ isolated_digit_runs (Some c) s'
  end.

(** The sequence under ['numbers'], empty when the key is absent. *)
Definition numbers_of (entities : Entities) : list string :=
  default [] (entities !! "numbers").

Definition sample_text : string :=
  "My order number is 12345 and email is test@example.com".

End EntityVocabulary.

Section FurtherVocabulary.
Import PyStr Re IntentRecognizer ResponseGenerator.

(** No keyword of the configuration occurs in the text. *)
Definition no_keyword_occurs (cfg : list (string * list string))
    (text_lower : string) : Prop :=
  Forall (fun e => Forall (fun kw => contains kw text_lower = false) e.2) cfg.

(** Every character is a decimal digit. *)
Fixpoint all_digits (s : string) : bool :=
  match s with
  | EmptyString => true
  | String c s' => is_digit c && all_digits s'
  end.

(** A row after one more use. *)
Definition used_once (row : Database.faq_row) : Database.faq_row :=
  {| Database.id := Database.id row;
     Database.question := Database.question row;
     Database.answer := Database.answer row;
     Database.category := Database.category row;
     Database.keywords := Database.keywords row;
     Database.usage_count := (Database.usage_count row + 1)%Z |}.

End FurtherVocabulary.

(* ===================================================================== *)
(** * Properties                                                          *)
(* ===================================================================== *)

(** ** The heap and the conversation context *)

Section HeapFacts.
Implicit Types (h : Heap) (l : loc) (k : string) (v : value).

Lemma deref_insert h l (d : Context) : deref (<[l := d]> h) l = d.
Proof. unfold deref. by rewrite lookup_insert_eq. Qed.

Lemma deref_setitem h l k v :
  deref (setitem h l k v) l = <[k := v]> (deref h l).
Proof. apply deref_insert. Qed.

Lemma lookup_setitem_eq h l k v : deref (setitem h l k v) l !! k = Some v.
Proof. rewrite deref_setitem. apply lookup_insert_eq. Qed.

Lemma lookup_setitem_ne h l k k' v :
  k ≠ k' -> deref (setitem h l k v) l !! k' = deref h l !! k'.
Proof. intros Hne. rewrite deref_setitem. by apply lookup_insert_ne. Qed.

End HeapFacts.

Section ContextFacts.
Import IntentRecognizer.

Lemma update_context_last_intent self intent entities h :
  deref (update_context self intent entities h) (context self)
    !! "last_intent" = Some (VStr intent).
Proof.
  unfold update_context.
  rewrite lookup_setitem_ne by done. apply lookup_setitem_eq.
Qed.

Lemma update_context_last_entities self intent entities h :
  deref (update_context self intent entities h) (context self)
    !! "last_entities" = Some (VEntities entities).
Proof. unfold update_context. apply lookup_setitem_eq. Qed.

Lemma analyze_query_unfold self text h :
  analyze_query self text h =
    ({| a_text := text;
        a_intent := (recognize_intent self text).1;
        a_confidence := (recognize_intent self text).2;
        a_entities := extract_entities text;
        a_context := context self |},
     update_context self (recognize_intent self text).1
       (extract_entities text) h).
Proof. unfold analyze_query. by destruct (recognize_intent self text). Qed.

(** C4 as the specification states it fails: writing through the value
    that [get_context] returns changes what the recognizer holds. *)
Lemma get_context_snapshot_counterexample :
  ~ (forall (self : t) (h : Heap) (k : string) (v : value),
        deref (setitem h (get_context self) k v) (context self)
        = deref h (context self)).
Proof.
  intros Hsnap.
  pose (fresh_bot := init (Config.load None) ∅).
  specialize (Hsnap fresh_bot.1 fresh_bot.2 "last_intent" (VStr "farewell")).
  apply (f_equal (fun d : Context => d !! "last_intent")) in Hsnap.
  rewrite lookup_setitem_eq in Hsnap. discriminate Hsnap.
Qed.

(** C4, amended: [get_context] returns the very dict the recognizer
    holds in [self.context]; for every state, an item a caller assigns
    through the returned reference is then found in the recognizer's own
    context. *)
Theorem get_context_is_alias (self : t) (h : Heap) (k : string) (v : value) :
  get_context self = context self /\
  deref (setitem h (get_context self) k v) (context self) !! k = Some v.
Proof. split; [reflexivity | apply lookup_setitem_eq]. Qed.

(** C9: after [analyze_query] on a text, the context holds under
    [last_intent] the intent that [recognize_intent] computes for that
    text and under [last_entities] the entities extracted from it. *)
Theorem analyze_query_context_roundtrip (self : t) (text : string) (h : Heap) :
  let h' := (analyze_query self text h).2 in
  deref h' (get_context self) !! "last_intent"
    = Some (VStr (recognize_intent self text).1) /\
  deref h' (get_context self) !! "last_entities"
    = Some (VEntities (extract_entities text)).
Proof.
  rewrite analyze_query_unfold. cbn. split.
  - apply update_context_last_intent.
  - apply update_context_last_entities.
Qed.

End ContextFacts.

(** ** The template stage *)

Lemma RESPONSE_TEMPLATES_ok : catalog_ok Config.RESPONSE_TEMPLATES.
Proof.
  split; [by eexists|].
  intros k l Hkl. apply elem_of_list_to_map_2 in Hkl.
  repeat (apply elem_of_cons in Hkl as [Hkl|Hkl]; [by inversion Hkl|]).
  by apply elem_of_nil in Hkl.
Qed.

Section TemplateStage.
Import PyStr ResponseGenerator.

Lemma append_empty_r (s : string) : s ++ "" = s.
Proof.
  induction s as [|c s IH]; [done|].
  change (String c (s ++ "") = String c s). by rewrite IH.
Qed.

Lemma endswith_refl s : endswith s s = true.
Proof. destruct s; [done|]. cbn [endswith]. by rewrite String.eqb_refl. Qed.

Lemma endswith_app pre suffix : endswith (pre ++ suffix) suffix = true.
Proof.
  induction pre as [|c pre IH].
  - apply endswith_refl.
  - change (endswith (String c (pre ++ suffix)) suffix = true).
    cbn [endswith]. rewrite IH. apply orb_true_r.
Qed.

Lemma templates_for_nonempty m intent :
  catalog_ok m -> templates_for m intent ≠ [].
Proof.
  intros [[dflt Hd] Hne]. unfold templates_for. rewrite Hd. cbn.
  destruct (m !! intent) as [l|] eqn:Hl; cbn; eauto.
Qed.

(** Without the [unknown] entry every call raises [KeyError], whatever
    the intent, and leaves the state as it was. *)
Lemma generate_response_no_unknown intent entities context w :
  response_templates (self w) !! "unknown" = None ->
  generate_response intent entities context w = (Raise (KeyError "unknown"), w).
Proof.
  intros Hu. unfold generate_response, lookup_templates, bind, get_self.
  by rewrite Hu.
Qed.

(** An empty entry makes [random.choice] raise, before any draw. *)
Lemma generate_response_empty_entry intent entities context w :
  is_Some (response_templates (self w) !! "unknown") ->
  templates_for (response_templates (self w)) intent = [] ->
  generate_response intent entities context w = (Raise IndexError, w).
Proof.
  destruct w as [me tape]. cbn. intros [dflt Hd] He.
  unfold templates_for in He. rewrite Hd in He. cbn in He.
  unfold generate_response, lookup_templates, bind, get_self, ret,
    random_choice, Random.choice. cbn.
  by rewrite Hd, He.
Qed.

Lemma context_tail_product_info c hist :
  c !! "last_intent" = Some (VStr "product_info") -> hist ≠ [] ->
  context_tail (Some c) hist = clarifying_prompt.
Proof.
  intros Hc Hh. unfold context_tail, context_truthy. rewrite Hc. cbn.
  rewrite bool_decide_eq_false_2.
  - destruct hist; [done|]. cbn. by rewrite bool_decide_eq_true_2.
  - intros ->. by rewrite lookup_empty in Hc.
Qed.

(** With the [unknown] entry present and a non-empty entry to choose
    from, the template stage returns a response: the member of the entry
    that the draw selects, enhanced, with what the context adds; it
    records it in the history and uses one draw. *)
Lemma generate_response_ok intent entities context w x l :
  is_Some (response_templates (self w) !! "unknown") ->
  templates_for (response_templates (self w)) intent = x :: l ->
  let chosen := nth (hd 0%nat (rng w) mod length (x :: l)) (x :: l) x in
  let resp := enhanced intent entities chosen
              ++ context_tail context (conversation_history (self w)) in
  generate_response intent entities context w =
    (Ok resp,
     recorded {| self := self w; rng := tl (rng w) |} intent resp None).
Proof.
  destruct w as [me tape]. intros [dflt Hd] Hl chosen resp.
  cbn [self rng] in *.
  unfold templates_for in Hl. rewrite Hd in Hl. cbn in Hl.
  subst resp.
  unfold generate_response, lookup_templates, bind, get_self, raise, ret,
    random_choice, Random.choice, _add_context_awareness, append_history,
    set_history, get_self, bind, recorded.
  cbn [self rng]. rewrite Hd, Hl.
  fold chosen. fold (enhanced intent entities chosen).
  unfold context_tail.
  destruct context as [c|]; [|by rewrite append_empty_r].
  destruct (context_truthy (Some c)); [|by rewrite append_empty_r].
  rewrite andb_true_l.
  destruct (truthy (c !! "last_intent") && _)%bool;
    [|by rewrite append_empty_r].
  rewrite andb_true_l.
  destruct (bool_decide _); [done|by rewrite append_empty_r].
Qed.

(** Whatever the draw, the chosen text is a member of the entry. *)
Lemma chosen_in_entry (x : string) l n :
  nth (n mod length (x :: l)) (x :: l) x ∈ x :: l.
Proof. apply list_elem_of_In, nth_In, Nat.mod_upper_bound. done. Qed.

(** A raising call of the template stage changes nothing. *)
Lemma generate_response_raise_frame intent entities context w e w' :
  generate_response intent entities context w = (Raise e, w') -> w' = w.
Proof.
  destruct (response_templates (self w) !! "unknown") as [dflt|] eqn:Hd.
  - destruct (decide (templates_for (response_templates (self w)) intent = []))
      as [He|Hne].
    + rewrite generate_response_empty_entry by eauto. by intros [= _ <-].
    + destruct (templates_for (response_templates (self w)) intent)
        as [|x l] eqn:Hl; [done|].
      rewrite (generate_response_ok _ _ _ _ x l) by eauto. by intros [=].
  - rewrite generate_response_no_unknown by done. by intros [= _ <-].
Qed.

(** On a first call, or with another [last_intent], the context adds
    nothing. *)
Lemma context_tail_silent c hist :
  hist = [] \/ (c !! "last_intent" ≠ Some (VStr "product_info")) ->
  context_tail (Some c) hist = "".
Proof.
  unfold context_tail. intros [->|Hc].
  - cbn [length Nat.ltb Nat.leb]. by rewrite andb_false_r.
  - rewrite (bool_decide_eq_false_2 _ Hc). by rewrite andb_false_r.
Qed.

Lemma context_ignored w intent entities c :
  (conversation_history (self w) = [])
  \/ (c !! "last_intent" ≠ Some (VStr "product_info")) ->
  generate_response intent entities (Some c) w
  = generate_response intent entities None w.
Proof.
  intros Hcond.
  destruct (response_templates (self w) !! "unknown") as [dflt|] eqn:Hd.
  - destruct (templates_for (response_templates (self w)) intent)
      as [|x l] eqn:Hl.
    + by rewrite !generate_response_empty_entry by eauto.
    + rewrite !(generate_response_ok _ _ _ _ x l) by eauto.
      by rewrite context_tail_silent.
  - by rewrite !generate_response_no_unknown.
Qed.

End TemplateStage.

Section TemplateClaims.
Import PyStr ResponseGenerator.

(** C6 as the specification states it fails: on the first call of a
    generator, whose history is still empty, nothing is appended even
    though the context says [product_info]. *)
Lemma product_info_prompt_counterexample :
  ~ (forall (w : world) (intent : string) (entities : option Entities)
            (c : Context),
        c !! "last_intent" = Some (VStr "product_info") ->
        exists resp,
          (generate_response intent entities (Some c) w).1 = Ok resp /\
          endswith resp clarifying_prompt = true).
Proof.
  intros Hclaim.
  destruct (Hclaim (fresh_world []) "greeting" None
              {[ "last_intent" := VStr "product_info" ]})
    as (resp & Hrun & Hend); [done|].
  vm_compute in Hrun. injection Hrun as <-. vm_compute in Hend. discriminate.
Qed.

(** C6, amended: for every call of [generate_response] with a context
    whose [last_intent] is [product_info] (and a usable catalog): when the
    conversation history already holds an earlier response, the returned
    response ends with the clarifying prompt; when the history is empty,
    the context adds nothing, the call doing exactly what the call without
    context does. *)
Theorem product_info_prompt_on_followup (w : world) (intent : string)
    (entities : option Entities) (c : Context) :
  c !! "last_intent" = Some (VStr "product_info") ->
  catalog_ok (response_templates (self w)) ->
  (conversation_history (self w) ≠ [] ->
   exists resp,
     (generate_response intent entities (Some c) w).1 = Ok resp /\
     endswith resp clarifying_prompt = true) /\
  (conversation_history (self w) = [] ->
   generate_response intent entities (Some c) w
   = generate_response intent entities None w).
Proof.
  intros Hc Hok. split.
  - intros Hh.
    pose proof (templates_for_nonempty _ intent Hok) as Hne.
    destruct (templates_for (response_templates (self w)) intent)
      as [|x l] eqn:Hl; [done|].
    rewrite (generate_response_ok _ _ _ _ x l) by (try apply Hok; done).
    eexists. split; [reflexivity|].
    rewrite context_tail_product_info by done. apply endswith_app.
  - intros Hh. apply context_ignored. by left.
Qed.

Lemma product_info_prompt_on_followup_witness :
  let c : Context := {[ "last_intent" := VStr "product_info" ]} in
  conversation_history (self (second_turn_world [1])) ≠ [] /\
  conversation_history (self (fresh_world [1])) = [] /\
  (exists resp,
      (generate_response "order_status" None (Some c)
         (second_turn_world [1])).1 = Ok resp /\
      endswith resp clarifying_prompt = true) /\
  generate_response "order_status" None (Some c) (fresh_world [1])
  = generate_response "order_status" None None (fresh_world [1]).
Proof.
  intros c.
  assert (Hc : c !! "last_intent" = Some (VStr "product_info")) by reflexivity.
  assert (Hfull : conversation_history (self (second_turn_world [1])) ≠ [])
    by discriminate.
  assert (Hempty : conversation_history (self (fresh_world [1])) = [])
    by reflexivity.
  split; [exact Hfull|]. split; [exact Hempty|]. split.
  - exact (proj1 (product_info_prompt_on_followup (second_turn_world [1])
                    "order_status" None c Hc RESPONSE_TEMPLATES_ok) Hfull).
  - exact (proj2 (product_info_prompt_on_followup (fresh_world [1])
                    "order_status" None c Hc RESPONSE_TEMPLATES_ok) Hempty).
Defined.

(** C7 as the specification states it fails: validation at startup
    accepts a catalog without [unknown], the bot starts, and the first
    request raises [KeyError]. *)
Lemma missing_unknown_counterexample :
  Config.validate (fun _ => true) cfg_without_unknown = Ok true /\
  (exists bot, VoiceBot.init (fun _ => true) VoiceBot.startup_ok
                 cfg_without_unknown ∅ = Ok bot) /\
  (generate_response "greeting" None None
     {| self := ResponseGenerator.init cfg_without_unknown; rng := [] |}).1
    = Raise (KeyError "unknown").
Proof.
  split; [reflexivity|]. split; [by eexists|].
  by rewrite generate_response_no_unknown.
Qed.

(** C7, amended: [Config.validate] looks at the credentials only, so its
    outcome is the same whatever the template catalog and the keyword
    configuration are; a catalog without the [unknown] entry makes every
    call of [generate_response] raise [KeyError], for every intent and
    with the state left unchanged; an empty keyword configuration raises
    nowhere, every text being classified [("unknown", 0.0)]. *)
Theorem configuration_errors_surface_per_request :
  (forall path_exists credentials keywords keywords' templates templates',
      Config.validate path_exists
        {| Config.GOOGLE_APPLICATION_CREDENTIALS := credentials;
           Config.intent_keywords := keywords;
           Config.response_templates := templates |}
      = Config.validate path_exists
          {| Config.GOOGLE_APPLICATION_CREDENTIALS := credentials;
             Config.intent_keywords := keywords';
             Config.response_templates := templates' |}) /\
  (forall templates history use client db tape intent entities context,
      let w := {| self := {| response_templates := delete "unknown" templates;
                             conversation_history := history;
                             use_ai_model := use; ai_client := client;
                             database := db |};
                  rng := tape |} in
      generate_response intent entities context w
      = (Raise (KeyError "unknown"), w)) /\
  (forall l text,
      IntentRecognizer.recognize_intent
        {| IntentRecognizer.intent_keywords := [];
           IntentRecognizer.context := l |} text
      = ("unknown", 0%Q)).
Proof.
  split; [done|]. split.
  - intros. apply generate_response_no_unknown. cbn. apply lookup_delete_eq.
  - intros l text. unfold IntentRecognizer.recognize_intent.
    by destruct (String.eqb text "").
Qed.

End TemplateClaims.

Section Pipeline.
Import IntentRecognizer.

(** C10: the ['context'] entry that [analyze_query] returns is the
    recognizer's own context, already updated for the current turn: its
    [last_intent] is the intent of the text just analysed, whatever the
    heap held before; [process_text_input] hands that context to
    [generate_response], which therefore sees the current turn's intent
    as [last_intent]. *)
Theorem process_text_input_passes_current_intent
    (bot : VoiceBot.t) (text : string) (h : Heap) (tape : list nat) :
  let r := VoiceBot.intent_recognizer bot in
  let a := (analyze_query r text h).1 in
  let h' := (analyze_query r text h).2 in
  a_context a = get_context r /\
  a_intent a = (recognize_intent r text).1 /\
  deref h' (a_context a) !! "last_intent" = Some (VStr (a_intent a)) /\
  exists c : Context,
    c !! "last_intent" = Some (VStr (recognize_intent r text).1) /\
    (VoiceBot.process_text_input bot text h tape).1.1.1
    = (ResponseGenerator.generate_response
         (recognize_intent r text).1 (Some (extract_entities text)) (Some c)
         {| ResponseGenerator.self := VoiceBot.response_generator bot;
            ResponseGenerator.rng := tape |}).1.
Proof.
  intros r a h'. subst a h'. unfold VoiceBot.process_text_input. fold r.
  rewrite analyze_query_unfold. cbn.
  split; [done|]. split; [done|].
  split; [apply update_context_last_intent|].
  exists (deref (update_context r (recognize_intent r text).1
                   (extract_entities text) h) (context r)).
  split; [apply update_context_last_intent|].
  by destruct (ResponseGenerator.generate_response _ _ _ _).
Qed.

End Pipeline.

(** ** The fallback chain *)

Section FallbackChain.
Import PyStr ResponseGenerator AdvancedResponseGenerator.

Variable dict_repr : Entities -> string.

(** [_check_faq] never raises: a failing lookup counts as no answer. *)
Lemma _check_faq_unfold user_query w :
  _check_faq user_query w =
    match database (self w) with
    | None => (Ok None, w)
    | Some db =>
        let r := Database.get_faq_by_keywords (split (lower user_query)) db in
        (Ok (match r.1 with
             | Ok (Some faq) => Some (Database.m_answer faq)
             | _ => None
             end),
         with_database w r.2)
    end.
Proof.
  destruct w as [me tape].
  unfold _check_faq, bind, get_self, try_except, set_database, ret, raise,
    with_database. cbn [self rng].
  destruct (database me) as [db|]; [|done].
  destruct (Database.get_faq_by_keywords _ db) as [[[faq|]|e] db']; done.
Qed.

Lemma template_stage_without_ai intent entities context w :
  ResponseGenerator.generate_response intent entities context (without_ai w) =
    ((ResponseGenerator.generate_response intent entities context w).1,
     without_ai (ResponseGenerator.generate_response intent entities context w).2).
Proof.
  destruct (response_templates (self w) !! "unknown") as [dflt|] eqn:Hd.
  - destruct (templates_for (response_templates (self w)) intent)
      as [|x l] eqn:Hl.
    + by rewrite !generate_response_empty_entry by eauto.
    + by rewrite !(generate_response_ok _ _ _ _ x l) by eauto.
  - by rewrite !generate_response_no_unknown.
Qed.

(** When the request fails the generative stage, as [generate_response]
    runs it, amounts to the template stage. *)
Lemma failing_ai_stage self_generate_response intent q entities context w create :
  ai_client (self w) = Some create ->
  fails_on create system_prompt
    (user_prompt dict_repr intent q entities context) ->
  try_except
    (generate_response_ai dict_repr self_generate_response
       intent q entities context)
    (fun _ => ResponseGenerator.generate_response intent entities context) w
  = ResponseGenerator.generate_response intent entities context w.
Proof.
  intros Hc Hfail.
  unfold try_except at 1, generate_response_ai, bind, get_self.
  rewrite Hc. unfold try_except, raise.
  destruct Hfail as [e ->].
  destruct (ResponseGenerator.generate_response intent entities context w)
    as [[resp|e'] w'] eqn:Hrun; [done|].
  apply generate_response_raise_frame in Hrun as Hw. subst w'. done.
Qed.

Lemma generate_response_stages depth intent entities context user_query w :
  generate_response dict_repr (S depth) intent entities context user_query w =
    match faq_stage user_query w with
    | (Ok faq_response, w1) =>
        if str_truthy faq_response then (Ok (default "" faq_response), w1)
        else later_stages dict_repr depth intent entities context user_query w1
    | (Raise e, w1) => (Raise e, w1)
    end.
Proof.
  cbn [generate_response]. unfold bind, get_self, faq_stage, later_stages.
  destruct (match database (self w) with
            | Some _ =>
                match user_query with
                | Some q =>
                    if str_truthy user_query then _check_faq q else ret None
                | None => ret None
                end
            | None => ret None
            end w) as [[faq|e] w1]; [|done].
  by destruct (str_truthy faq).
Qed.

(** The knowledge-base stage never raises, and does not touch the
    settings of the other stages. *)
Lemma faq_stage_ok user_query w :
  exists faq w1,
    faq_stage user_query w = (Ok faq, w1) /\
    faq_stage user_query (without_ai w) = (Ok faq, without_ai w1) /\
    ai_client (self w1) = ai_client (self w) /\
    response_templates (self w1) = response_templates (self w).
Proof.
  unfold faq_stage, ret. cbn [without_ai self].
  destruct (database (self w)) as [db|] eqn:Hd; [|by exists None, w].
  destruct user_query as [q|]; [|by exists None, w].
  destruct (str_truthy (Some q)); [|by exists None, w].
  cbn [database]. rewrite !_check_faq_unfold.
  cbn [without_ai self database]. rewrite Hd.
  eexists _, _. split; [reflexivity|]. by split.
Qed.

Lemma later_stages_failing_ai depth intent entities context user_query w :
  generative_call_fails dict_repr w intent entities context user_query ->
  later_stages dict_repr depth intent entities context user_query w
  = ResponseGenerator.generate_response intent entities context w.
Proof.
  intros Hfail. unfold later_stages.
  destruct user_query as [q|]; [|done].
  destruct (use_ai_model (self w)); [|done].
  destruct (ai_client (self w)) as [create|] eqn:Hc;
    [|by rewrite bool_decide_eq_false_2 by (by intros [? ?])].
  rewrite bool_decide_eq_true_2 by eauto.
  destruct (str_truthy (Some q)); [|done]. cbn [andb].
  apply (failing_ai_stage _ _ _ _ _ _ create); auto.
Qed.

Lemma later_stages_without_ai depth intent entities context user_query w :
  later_stages dict_repr depth intent entities context user_query (without_ai w)
  = ResponseGenerator.generate_response intent entities context (without_ai w).
Proof. unfold later_stages. by destruct user_query. Qed.

(** C1: for every call of the advanced [generate_response], when the
    request that the call makes to the completion service raises or
    returns nothing usable, whatever the service does on other requests,
    the exception stays inside the generator: the call returns what the
    same call returns with the generative stage switched off, leaving the
    same history, database and random state; and with a usable catalog
    what it returns is a response string. *)
Theorem failing_ai_falls_back_to_templates
    (depth : nat) (w : world) (intent : string)
    (entities : option Entities) (context : option Context)
    (user_query : option string) :
  generative_call_fails dict_repr w intent entities context user_query ->
  let run := generate_response dict_repr (S depth) intent entities context
               user_query in
  run (without_ai w) = ((run w).1, without_ai (run w).2) /\
  (catalog_ok (response_templates (self w)) -> exists resp, (run w).1 = Ok resp).
Proof.
  intros Hfail run. subst run. rewrite !generate_response_stages.
  destruct (faq_stage_ok user_query w) as (faq & w1 & -> & -> & Hcl & Htpl).
  destruct (str_truthy faq); [by eauto|].
  rewrite later_stages_without_ai, template_stage_without_ai.
  rewrite later_stages_failing_ai
    by (unfold generative_call_fails; rewrite Hcl; exact Hfail).
  split; [done|].
  intros Hok. rewrite <- Htpl in Hok.
  pose proof (templates_for_nonempty _ intent Hok) as Hne.
  destruct (templates_for (response_templates (self w1)) intent)
    as [|x l] eqn:Hl; [done|].
  rewrite (generate_response_ok _ _ _ _ x l) by (try apply Hok; done).
  by eexists.
Qed.

End FallbackChain.

Lemma failing_ai_falls_back_to_templates_witness :
  let prompt :=
    AdvancedResponseGenerator.user_prompt (fun _ => "{}") "greeting"
      "hello there" None None in
  let picky : ResponseGenerator.client :=
    fun _ user =>
      if String.eqb user prompt then ResponseGenerator.CallRaises
      else ResponseGenerator.Choices [Some "Hi!"] in
  let w :=
    {| ResponseGenerator.self :=
         {| ResponseGenerator.response_templates := Config.RESPONSE_TEMPLATES;
            ResponseGenerator.conversation_history := [];
            ResponseGenerator.use_ai_model := true;
            ResponseGenerator.ai_client := Some picky;
            ResponseGenerator.database := None |};
       ResponseGenerator.rng := [2] |} in
  let run :=
    AdvancedResponseGenerator.generate_response (fun _ => "{}") 1
      "greeting" None None (Some "hello there") in
  generative_call_fails (fun _ => "{}") w "greeting" None None
    (Some "hello there") /\
  AdvancedResponseGenerator.completion_text (picky "" "another request")
  = Ok "Hi!" /\
  catalog_ok (ResponseGenerator.response_templates (ResponseGenerator.self w)) /\
  run (without_ai w) = ((run w).1, without_ai (run w).2) /\
  (run w).1 = Ok "Welcome! I'm here to help you.".
Proof.
  intros prompt picky w run.
  assert (Hfail : generative_call_fails (fun _ => "{}") w "greeting" None None
                    (Some "hello there")).
  { intros create q [= <-] [= <-]. exists APIError. vm_compute. reflexivity. }
  split; [exact Hfail|]. split; [vm_compute; reflexivity|].
  split; [exact RESPONSE_TEMPLATES_ok|].
  split; [|vm_compute; reflexivity].
  exact (proj1 (failing_ai_falls_back_to_templates (fun _ => "{}") 0 w
                  "greeting" None None (Some "hello there") Hfail)).
Defined.

(** ** The knowledge-base matcher *)

Section KnowledgeBase.
Import PyStr Database.

Lemma existsb_Exists {A} (f : A -> bool) (l : list A) :
  Is_true (existsb f l) <-> Exists (fun x => f x = true) l.
Proof.
  induction l as [|x l IH]; cbn.
  - split; [done|by intros ?%Exists_nil].
  - rewrite Exists_cons, orb_True, IH, Is_true_true. done.
Qed.

Lemma score_overlap tokens row :
  Forall lowercase tokens -> score tokens (keywords row) = overlap tokens row.
Proof.
  unfold score, overlap. intros Hlow. f_equal.
  induction Hlow as [|token tokens Htok _ IH]; [done|].
  rewrite !filter_cons, IH. rewrite Htok.
  destruct (decide (Is_true _)) as [H|H], (decide (Exists _ _)) as [H'|H'];
    try done.
  - by apply existsb_Exists in H.
  - by apply existsb_Exists in H'.
Qed.

Lemma faq_loop_first_best keywords rows :
  first_best (fun r => score keywords (Database.keywords r)) rows
    (fold_left (faq_step keywords) rows (None, 0%nat)).
Proof.
  induction rows as [|x rows IH] using rev_ind; [by split|].
  rewrite fold_left_app. cbn [fold_left].
  destruct (fold_left (faq_step keywords) rows (None, 0%nat)) as [bm bs].
  unfold first_best, faq_step in *. cbn [fst snd] in *.
  destruct (Nat.ltb_spec bs (score keywords (Database.keywords x)))
    as [Hlt|Hge]; cbn [fst snd].
  - exists rows, x, []. split; [done|]. split; [done|]. split; [done|].
    split; [lia|]. split; [|constructor].
    destruct bm as [m|].
    + destruct IH as (pre & row & post & -> & _ & -> & _ & Hpre & Hpost).
      apply Forall_app. split; [|apply Forall_cons; split].
      * eapply Forall_impl; [exact Hpre|]. cbn. lia.
      * done.
      * eapply Forall_impl; [exact Hpost|]. cbn. lia.
    + destruct IH as [-> Hz]. eapply Forall_impl; [exact Hz|]. cbn. lia.
  - destruct bm as [m|].
    + destruct IH as (pre & row & post & -> & -> & -> & Hpos & Hpre & Hpost).
      exists pre, row, (post ++ [x])%list.
      split; [by rewrite <- app_assoc|]. split; [done|]. split; [done|].
      split; [done|]. split; [done|].
      apply Forall_app. split; [done|]. by apply Forall_singleton.
    + destruct IH as [-> Hz]. split; [done|].
      apply Forall_app. split; [done|]. apply Forall_singleton. lia.
Qed.

(** C2: for lowercase input tokens, [get_faq_by_keywords] scores each
    stored record by the number of tokens having a keyword of the record
    as a substring; it returns [None] exactly when every record scores 0,
    and otherwise the record of greatest score that is stored first: the
    records before it score strictly less, those after it at most as
    much. *)
Theorem get_faq_by_keywords_first_best (self : Database.t)
    (tokens : list string) :
  db_type self = "sqlite" ->
  Forall lowercase tokens ->
  let r := (get_faq_by_keywords tokens self).1 in
  (r = Ok None <-> Forall (fun row => overlap tokens row = 0%nat) (faqs self)) /\
  ((exists m, r = Ok (Some m)) \/ r = Ok None) /\
  (forall m, r = Ok (Some m) ->
     exists pre row post,
       faqs self = (pre ++ row :: post)%list /\ m = match_of row /\
       (0 < overlap tokens row)%nat /\
       Forall (fun r' => (overlap tokens r' < overlap tokens row)%nat) pre /\
       Forall (fun r' => (overlap tokens r' <= overlap tokens row)%nat) post).
Proof.
  intros Hsql Hlow r. subst r.
  unfold get_faq_by_keywords, get_connection. rewrite Hsql. cbn [String.eqb].
  pose proof (faq_loop_first_best tokens (faqs self)) as Hbest.
  destruct (fold_left (faq_step tokens) (faqs self) (None, 0%nat)) as [bm bs].
  unfold first_best in Hbest. cbn [fst snd] in Hbest.
  assert (Hsc : forall row, score tokens (keywords row) = overlap tokens row)
    by (intros; by apply score_overlap).
  destruct bm as [m|]; cbn [fst].
  - destruct Hbest as (pre & row & post & Hrows & -> & _ & Hpos & Hpre & Hpost).
    rewrite Hsc in Hpos.
    split; [|split].
    + split; [done|]. intros Hz. rewrite Hrows in Hz.
      apply Forall_app in Hz as [_ Hz]. apply Forall_cons in Hz as [Hz _]. lia.
    + left. by eexists.
    + intros m [= <-]. exists pre, row, post. repeat split; try done.
      * eapply Forall_impl; [exact Hpre|]. cbn. intros r'. by rewrite !Hsc.
      * eapply Forall_impl; [exact Hpost|]. cbn. intros r'. by rewrite !Hsc.
  - destruct Hbest as [_ Hz]. split; [|split].
    + split; [|done]. intros _.
      eapply Forall_impl; [exact Hz|]. cbn. intros r'. by rewrite Hsc.
    + by right.
    + by intros m [=].
Qed.

End KnowledgeBase.

Lemma get_faq_by_keywords_first_best_witness :
  let row1 := {| Database.id := 1; Database.question := "Where is my order?";
                 Database.answer := "Use the tracking page.";
                 Database.category := "orders";
                 Database.keywords := ["order"; "track"];
                 Database.usage_count := 0 |} in
  let row2 := {| Database.id := 2; Database.question := "How do I pay?";
                 Database.answer := "By card.";
                 Database.category := "billing";
                 Database.keywords := ["order"; "status"];
                 Database.usage_count := 3 |} in
  let db := {| Database.db_type := "sqlite"; Database.faqs := [row1; row2] |} in
  let tokens := ["track"; "my"; "order"] in
  Forall lowercase tokens /\
  (Database.get_faq_by_keywords tokens db).1 = Ok (Some (Database.match_of row1)) /\
  exists pre row post,
    Database.faqs db = (pre ++ row :: post)%list /\
    Database.match_of row1 = Database.match_of row /\
    (0 < overlap tokens row)%nat /\
    Forall (fun r' => (overlap tokens r' < overlap tokens row)%nat) pre /\
    Forall (fun r' => (overlap tokens r' <= overlap tokens row)%nat) post.
Proof.
  intros row1 row2 db tokens.
  assert (Hlow : Forall lowercase tokens) by (repeat constructor).
  assert (Hrun : (Database.get_faq_by_keywords tokens db).1
                 = Ok (Some (Database.match_of row1))) by (vm_compute; reflexivity).
  split; [exact Hlow|]. split; [exact Hrun|].
  exact (proj2 (proj2 (get_faq_by_keywords_first_best db tokens eq_refl Hlow))
           (Database.match_of row1) Hrun).
Defined.

(** ** The matcher *)

Section MatcherFacts.
Import PyStr Re.

Lemma match_here_rep cls lo hi re prev s :
  match_here (Rep cls lo hi :: re) prev s =
    let stop := if (lo =? 0)%nat then match_here re prev s else None in
    match s with
    | String c s' =>
        if cls c && can_take hi then
          match match_here (Rep cls (pred lo) (dec hi) :: re) (Some c) s' with
          | Some n => Some (S n)
          | None => stop
          end
        else stop
    | EmptyString => stop
    end.
Proof. by destruct s. Qed.

Lemma match_here_wordb re prev s :
  match_here (WordB :: re) prev s =
    if at_boundary prev s then match_here re prev s else None.
Proof. done. Qed.

(** A class that can be taken no more is skipped. *)
Lemma match_here_rep_done cls re prev s :
  match_here (Rep cls 0 (Some 0) :: re) prev s = match_here re prev s.
Proof.
  rewrite match_here_rep. destruct s as [|c s]; [done|].
  cbn [can_take]. by rewrite andb_false_r.
Qed.

(** A literal consumes exactly its character. *)
Lemma match_here_lit c re prev s :
  match_here (Lit c :: re) prev s =
    match s with
    | String c' s' =>
        if Ascii.eqb c c'
        then match match_here re (Some c') s' with
             | Some n => Some (S n)
             | None => None
             end
        else None
    | EmptyString => None
    end.
Proof.
  unfold Lit. rewrite match_here_rep. destruct s as [|c' s']; [done|].
  cbn [can_take dec pred Nat.eqb]. rewrite andb_true_r, match_here_rep_done.
  by destruct (Ascii.eqb c c').
Qed.

Lemma prefix_cons c kw c' s :
  String.prefix (String c kw) (String c' s)
  = Ascii.eqb c c' && String.prefix kw s.
Proof.
  cbn [String.prefix].
  destruct (Ascii.eqb_spec c c') as [Heq|Hne], (ascii_dec c c'); done.
Qed.

(** The escaped keyword followed by [\b] matches where the keyword is a
    prefix and a word boundary follows it. *)
Lemma match_here_escape kw prev s :
  match_here (escape kw ++ [WordB]) prev s =
    if String.prefix kw s
       && at_boundary (last_char prev kw) (drop (String.length kw) s)
    then Some (String.length kw) else None.
Proof.
  revert prev s. induction kw as [|c kw IH]; intros prev s.
  - cbn [escape app last_char String.length]. rewrite match_here_wordb.
    replace (String.prefix "" s) with true by (by destruct s).
    replace (drop 0 s) with s by (by destruct s).
    by destruct (at_boundary prev s).
  - cbn [escape app]. rewrite match_here_lit.
    destruct s as [|c' s']; [done|].
    rewrite prefix_cons. cbn [last_char String.length drop].
    destruct (Ascii.eqb_spec c c') as [<-|Hne]; [|done].
    rewrite IH, andb_true_l.
    by destruct (String.prefix kw s' && _).
Qed.

Lemma search_word_pattern_from kw prev s :
  search_from (IntentRecognizer.word_pattern kw) prev s
  = word_bounded_from kw prev s.
Proof.
  revert prev. induction s as [|c s IH]; intros prev.
  - cbn [search_from word_bounded_from].
    unfold IntentRecognizer.word_pattern.
    rewrite match_here_wordb, match_here_escape, orb_false_r.
    destruct (at_boundary prev ""); [|done].
    rewrite andb_true_l. by destruct (String.prefix kw "" && _).
  - cbn [search_from word_bounded_from].
    unfold IntentRecognizer.word_pattern at 1.
    rewrite match_here_wordb, match_here_escape, IH.
    destruct (at_boundary prev (String c s)); [|done].
    rewrite andb_true_l. by destruct (String.prefix kw (String c s) && _).
Qed.

(** The regular expression of the bonus finds what the specification calls
    a match at word boundaries. *)
Lemma search_word_pattern kw text :
  search (IntentRecognizer.word_pattern kw) text = word_bounded kw text.
Proof. apply search_word_pattern_from. Qed.

End MatcherFacts.

(** ** The classifier *)

Section ClassifierFacts.
Import PyStr Re IntentRecognizer.

Lemma Qlt_bool_iff (x y : Q) : Qlt_bool x y = true <-> (x < y)%Q.
Proof.
  unfold Qlt_bool. rewrite negb_true_iff. split.
  - intros H. apply Qnot_le_lt. intros Hle.
    apply Qle_bool_iff in Hle. congruence.
  - intros H. destruct (Qle_bool y x) eqn:Hb; [|done].
    apply Qle_bool_iff in Hb. lra.
Qed.

Lemma Qlt_bool_false (x y : Q) : Qlt_bool x y = false <-> (y <= x)%Q.
Proof.
  unfold Qlt_bool. rewrite negb_false_iff. apply Qle_bool_iff.
Qed.

Lemma keyword_value_nonneg t kw : (0 <= keyword_value t kw)%Q.
Proof.
  unfold keyword_value.
  destruct (contains kw t), (word_bounded kw t); cbv iota; lra.
Qed.

Lemma spec_score_nonneg t kws : (0 <= spec_score t kws)%Q.
Proof.
  induction kws as [|kw kws IH]; cbn [spec_score fold_right]; [lra|].
  fold (spec_score t kws). pose proof (keyword_value_nonneg t kw). lra.
Qed.

(** One turn of the inner loop adds the value of the keyword. *)
Lemma keyword_step_value t score kw :
  (keyword_step t score kw == score + keyword_value t kw)%Q.
Proof.
  unfold keyword_step, keyword_value. rewrite search_word_pattern.
  destruct (contains kw t), (word_bounded kw t); cbv iota; ring.
Qed.

Lemma keyword_loop_value t kws score :
  (fold_left (keyword_step t) kws score == score + spec_score t kws)%Q.
Proof.
  revert score.
  induction kws as [|kw kws IH]; intros score; cbn [fold_left spec_score fold_right].
  - ring.
  - fold (spec_score t kws). rewrite IH, keyword_step_value. ring.
Qed.

(** The score the code computes is the score of the specification. *)
Lemma intent_score_spec t kws : (intent_score t kws == spec_score t kws)%Q.
Proof. unfold intent_score. rewrite keyword_loop_value. ring. Qed.

Lemma intent_loop_positives t cfg acc :
  fold_left (intent_step t) cfg acc = (acc ++ positives t cfg)%list.
Proof.
  revert acc. induction cfg as [|e cfg IH]; intros acc.
  - unfold positives. cbn. by rewrite app_nil_r.
  - cbn [fold_left]. rewrite IH. unfold positives, intent_step.
    cbn [map]. rewrite filter_cons. cbn [snd fst].
    destruct (Qlt_bool 0 (intent_score t e.2)) eqn:Hb.
    + rewrite decide_True by done. by rewrite <- app_assoc.
    + by rewrite decide_False by done.
Qed.

Lemma score_intents_positives self t :
  score_intents self t = positives t (intent_keywords self).
Proof. apply intent_loop_positives. Qed.

(** [max] returns the first item of greatest key. *)
Lemma max_by_score_first best items :
  exists A B,
    (best :: items = A ++ max_by_score best items :: B)%list /\
    Forall (fun p => (p.2 < (max_by_score best items).2)%Q) A /\
    Forall (fun p => (p.2 <= (max_by_score best items).2)%Q) B.
Proof.
  revert best. induction items as [|x items IH]; intros best.
  - exists [], []. by repeat constructor.
  - cbn [max_by_score].
    destruct (Qlt_bool best.2 x.2) eqn:Hb.
    + apply Qlt_bool_iff in Hb.
      destruct (IH x) as (A & B & Heq & HA & HB).
      set (r := max_by_score x items) in *.
      exists (best :: A), B. split; [by rewrite Heq|]. split; [|done].
      constructor; [|done].
      destruct A as [|a A].
      * injection Heq as Hx _. rewrite <- Hx. exact Hb.
      * injection Heq as Ha _. apply Forall_cons in HA as [Hlt _].
        rewrite <- Ha in Hlt. cbn in *. lra.
    + apply Qlt_bool_false in Hb.
      destruct (IH best) as (A & B & Heq & HA & HB).
      set (r := max_by_score best items) in *.
      destruct A as [|a A].
      * injection Heq as Hr Hitems. exists [], (x :: B).
        split; [by rewrite <- Hr, Hitems|]. split; [constructor|].
        constructor; [|done]. by rewrite <- Hr.
      * injection Heq as Ha Hitems. exists (best :: x :: A), B.
        split; [by rewrite Hitems|]. split; [|done].
        apply Forall_cons in HA as [Hlt HA]. subst a.
        constructor; [done|]. constructor; [|done]. cbn in *. lra.
Qed.

(** An item of a filtered image comes from an entry of the list, and
    splits the list around it. *)
Lemma positives_split t cfg A x B :
  positives t cfg = (A ++ x :: B)%list ->
  exists pre e post,
    cfg = (pre ++ e :: post)%list /\ x = (e.1, intent_score t e.2) /\
    positives t pre = A /\ positives t post = B.
Proof.
  revert A. induction cfg as [|e cfg IH]; intros A.
  - unfold positives. cbn. by destruct A.
  - unfold positives in *. cbn [map]. rewrite filter_cons. cbn [snd].
    destruct (decide (Qlt_bool 0 (intent_score t e.2) = true)) as [Hp|Hn].
    + destruct A as [|a A]; cbn [app].
      * intros [= <- HB]. by exists [], e, cfg.
      * intros [= <- Hrest]. destruct (IH A Hrest) as (pre & e' & post & -> & -> & HA & HB).
        exists (e :: pre), e', post. split; [done|]. split; [done|].
        split; [|done]. cbn [map]. rewrite filter_cons. cbn [snd].
        rewrite decide_True by done. by rewrite HA.
    + intros Hrest. destruct (IH A Hrest) as (pre & e' & post & -> & -> & HA & HB).
      exists (e :: pre), e', post. split; [done|]. split; [done|].
      split; [|done]. cbn [map]. rewrite filter_cons. cbn [snd].
      by rewrite decide_False.
Qed.

(** A bound on the positive scores, when it is positive itself, bounds
    every score. *)
Lemma positives_bound (R : Q -> Q -> Prop) t cfg (s : Q) :
  (forall x, (x <= 0)%Q -> R x s) ->
  Forall (fun p => R p.2 s) (positives t cfg) ->
  Forall (fun e => R (intent_score t e.2) s) cfg.
Proof.
  intros Hlow. unfold positives.
  induction cfg as [|e cfg IH]; [constructor|].
  cbn [map]. rewrite filter_cons. cbn [snd].
  destruct (decide (Qlt_bool 0 (intent_score t e.2) = true)) as [Hp|Hn].
  - intros [He Hrest]%Forall_cons. constructor; auto.
  - intros Hrest. constructor; [|auto].
    apply Hlow. apply Qlt_bool_false. by destruct (Qlt_bool 0 _).
Qed.

Lemma positives_nil t cfg :
  positives t cfg = [] -> Forall (fun e => (intent_score t e.2 <= 0)%Q) cfg.
Proof.
  unfold positives. induction cfg as [|e cfg IH]; [constructor|].
  cbn [map]. rewrite filter_cons. cbn [snd].
  destruct (decide (Qlt_bool 0 (intent_score t e.2) = true)) as [Hp|Hn]; [done|].
  intros Hrest. constructor; [|auto].
  apply Qlt_bool_false. by destruct (Qlt_bool 0 _).
Qed.

(** What [recognize_intent] returns, in terms of the scores the code
    computes: [("unknown", 0)] for the empty text and when no intent has a
    positive score, otherwise the first entry of greatest score. *)
Lemma recognize_intent_cases self text :
  let t := lower text in
  (recognize_intent self text = ("unknown", 0%Q) /\
   (text = "" \/
    Forall (fun e => (intent_score t e.2 <= 0)%Q) (intent_keywords self)))
  \/
  (text ≠ "" /\
   exists pre intent kws post,
     intent_keywords self = (pre ++ (intent, kws) :: post)%list /\
     recognize_intent self text
       = (intent, Qmin (intent_score t kws / 3) 1) /\
     (0 < intent_score t kws)%Q /\
     Forall (fun e => (intent_score t e.2 < intent_score t kws)%Q) pre /\
     Forall (fun e => (intent_score t e.2 <= intent_score t kws)%Q) post).
Proof.
  intros t. unfold recognize_intent.
  destruct (String.eqb_spec text "") as [->|Hne]; [left; by split; [|left]|].
  fold t. rewrite score_intents_positives.
  destruct (positives t (intent_keywords self)) as [|first rest] eqn:Hpos.
  { left. split; [done|]. right. by apply positives_nil. }
  right. split; [done|].
  destruct (max_by_score_first first rest) as (A & B & Heq & HA & HB).
  set (r := max_by_score first rest) in *.
  rewrite Heq in Hpos.
  destruct (positives_split _ _ _ _ _ Hpos)
    as (pre & [intent kws] & post & Hcfg & Hr & HpA & HpB).
  cbn [fst snd] in Hr.
  assert (Hrpos : (0 < intent_score t kws)%Q).
  { assert (Hin : r ∈ positives t (intent_keywords self)).
    { rewrite Hpos. apply elem_of_app. right. by left. }
    apply list_elem_of_filter in Hin as [Hp _].
    apply Qlt_bool_iff in Hp. by rewrite Hr in Hp. }
  exists pre, intent, kws, post. split; [done|]. rewrite Hr. cbn [fst snd].
  split; [done|]. split; [done|]. rewrite Hr in HA, HB. cbn [snd] in HA, HB.
  split.
  - apply (positives_bound Qlt); [intros; lra|]. by rewrite HpA.
  - apply (positives_bound Qle); [intros; lra|]. by rewrite HpB.
Qed.

End ClassifierFacts.

Section ClassifierClaims.
Import PyStr Re IntentRecognizer.

Lemma shipped_intents_not_unknown pre kws post :
  Config.INTENT_KEYWORDS ≠ (pre ++ ("unknown", kws) :: post)%list.
Proof.
  intros Hcfg.
  assert (Hin : "unknown" ∈ map fst Config.INTENT_KEYWORDS).
  { rewrite Hcfg, map_app. apply elem_of_app. right. by left. }
  cbn in Hin.
  repeat (apply elem_of_cons in Hin as [Hin|Hin]; [discriminate|]).
  by apply elem_of_nil in Hin.
Qed.

(** C3 as the specification states it fails: a text without any keyword is
    not given the first configured intent with confidence 0, it is given
    [unknown], which is no configured intent. *)
Lemma picks_greatest_counterexample :
  ~ (forall (self : IntentRecognizer.t) (text : string),
        text ≠ "" -> picks_greatest self text).
Proof.
  intros Hclaim.
  destruct (Hclaim (shipped_recognizer 1%positive) "xyz")
    as (intent & s & (pre & kws & post & Hcfg & _) & Hintent & _); [done|].
  vm_compute in Hintent. subst intent.
  by apply shipped_intents_not_unknown in Hcfg.
Qed.

(** C3, amended: for every non-empty text, lowercased, each configured
    intent scores 1.0 per keyword occurring as a substring plus 0.5 when
    that keyword also matches at word boundaries (in the sense of [\b]: a
    word character, alphanumeric or underscore, on one side only).  When at
    least one intent has a positive score the classifier returns the intent
    of greatest score, the first such in declaration order, with confidence
    min(score / 3.0, 1.0); when every intent scores 0 it returns
    [("unknown", 0.0)]. *)
Theorem recognize_intent_first_greatest (self : IntentRecognizer.t)
    (text : string) :
  text ≠ "" ->
  let t := lower text in
  (Forall (fun e => (spec_score t e.2 == 0)%Q) (intent_keywords self) /\
   recognize_intent self text = ("unknown", 0%Q))
  \/
  (exists intent s,
      (0 < s)%Q /\
      first_greatest (intent_keywords self) (spec_score t) intent s /\
      (recognize_intent self text).1 = intent /\
      ((recognize_intent self text).2 == Qmin (s / 3) 1)%Q).
Proof.
  intros Hne t.
  destruct (recognize_intent_cases self text)
    as [[Hr [Hempty|Hzero]]|(_ & pre & intent & kws & post & Hcfg & Hr & Hpos & Hpre & Hpost)];
    [done| |].
  - left. split; [|done].
    eapply Forall_impl; [exact Hzero|]. cbn. intros e He. fold t in He.
    rewrite intent_score_spec in He.
    pose proof (spec_score_nonneg t e.2). lra.
  - right. fold t in Hr, Hpos, Hpre, Hpost.
    exists intent, (spec_score t kws).
    split; [by rewrite <- intent_score_spec|].
    split; [|split].
    + exists pre, kws, post. split; [done|]. split; [done|]. split.
      * eapply Forall_impl; [exact Hpre|]. cbn. intros e He.
        by rewrite <- !intent_score_spec.
      * eapply Forall_impl; [exact Hpost|]. cbn. intros e He.
        by rewrite <- !intent_score_spec.
    + by rewrite Hr.
    + rewrite Hr. cbn [snd]. by rewrite intent_score_spec.
Qed.

Lemma recognize_intent_first_greatest_witness :
  "Hello, how are you?" ≠ "" /\
  recognize_intent (shipped_recognizer 1%positive) "Hello, how are you?"
    = ("greeting", Qmin ((0 + 1 + (1 # 2)) / 3) 1) /\
  let t := lower "Hello, how are you?" in
  (Forall (fun e => (spec_score t e.2 == 0)%Q) Config.INTENT_KEYWORDS /\
   recognize_intent (shipped_recognizer 1%positive) "Hello, how are you?"
     = ("unknown", 0%Q))
  \/
  (exists intent s,
      (0 < s)%Q /\
      first_greatest Config.INTENT_KEYWORDS (spec_score t) intent s /\
      (recognize_intent (shipped_recognizer 1%positive) "Hello, how are you?").1
        = intent /\
      ((recognize_intent (shipped_recognizer 1%positive) "Hello, how are you?").2
       == Qmin (s / 3) 1)%Q).
Proof.
  split; [discriminate|]. split; [vm_compute; reflexivity|].
  apply (recognize_intent_first_greatest (shipped_recognizer 1%positive)
           "Hello, how are you?").
  discriminate.
Defined.

(** C8: for every text, the empty one included, the confidence that
    [recognize_intent] returns under the shipped keyword table lies in
    [0, 1], and it is 0 exactly when the returned intent is [unknown]. *)
Theorem confidence_zero_iff_unknown (l : loc) (text : string) :
  let r := recognize_intent (shipped_recognizer l) text in
  (0 <= r.2)%Q /\ (r.2 <= 1)%Q /\ ((r.2 == 0)%Q <-> r.1 = "unknown").
Proof.
  intros r. subst r.
  destruct (recognize_intent_cases (shipped_recognizer l) text)
    as [[-> _]|(_ & pre & intent & kws & post & Hcfg & -> & Hpos & _)].
  - cbn [fst snd]. split; [lra|]. split; [lra|]. done.
  - cbn [fst snd].
    set (sc := intent_score (lower text) kws) in *.
    assert (Hthird : (0 < sc / 3)%Q) by (apply Qlt_shift_div_l; lra).
    destruct (Q.min_spec (sc / 3) 1) as [[Hlt Hmin]|[Hle Hmin]];
      (split; [lra|]); (split; [lra|]).
    + split; [lra|]. intros ->. by apply shipped_intents_not_unknown in Hcfg.
    + split; [lra|]. intros ->. by apply shipped_intents_not_unknown in Hcfg.
Qed.

End ClassifierClaims.

(** ** The entity extractor *)

Section EntityFacts.
Import PyStr Re IntentRecognizer.

Lemma is_digit_word c : is_digit c = true -> is_word c = true.
Proof. unfold is_word. by intros ->. Qed.

(** After a word character, [\d*\b] takes the digits ahead, provided no
    word character follows them. *)
Lemma match_here_digits_tail (p : ascii) s :
  is_word p = true ->
  match_here [Rep is_digit 0 None; WordB] (Some p) s =
    if negb (is_word_opt (head (after_digits s)))
    then Some (String.length (digit_run s)) else None.
Proof.
  revert p. induction s as [|c s IH]; intros p Hp; rewrite match_here_rep.
  - cbn [Nat.eqb]. rewrite match_here_wordb. unfold at_boundary.
    cbn [is_word_opt head after_digits digit_run String.length negb].
    by rewrite Hp.
  - cbn [Nat.eqb can_take dec pred after_digits digit_run].
    rewrite andb_true_r, match_here_wordb. unfold at_boundary.
    cbn [is_word_opt head]. rewrite Hp.
    destruct (is_digit c) eqn:Hd.
    + rewrite (IH c) by (by apply is_digit_word).
      rewrite (is_digit_word c Hd). cbn [xorb String.length].
      by destruct (negb _).
    + cbn [head is_word_opt String.length match_here].
      by destruct (is_word c).
Qed.

(** [\b\d+\b] matches at a digit that no word character precedes, when no
    word character follows the digits; it takes all of them. *)
Lemma match_here_numbers prev s :
  match_here numbers_re prev s =
    match s with
    | String c _ =>
        if is_digit c && negb (is_word_opt prev)
           && negb (is_word_opt (head (after_digits s)))
        then Some (String.length (digit_run s)) else None
    | EmptyString => None
    end.
Proof.
  unfold numbers_re, Plus. rewrite match_here_wordb, match_here_rep.
  destruct s as [|c s].
  - cbn [Nat.eqb]. by destruct (at_boundary prev "").
  - cbn [Nat.eqb can_take dec pred andb]. rewrite andb_true_r.
    unfold at_boundary. cbn [head is_word_opt after_digits digit_run].
    destruct (is_digit c) eqn:Hd.
    + rewrite (is_digit_word c Hd).
      rewrite match_here_digits_tail by (by apply is_digit_word).
      cbn [andb String.length].
      destruct (is_word_opt prev); cbn [xorb negb andb]; [done|].
      by destruct (negb _).
    + by destruct (xorb _ _).
Qed.

Lemma take_digit_run s : take (String.length (digit_run s)) s = digit_run s.
Proof.
  induction s as [|c s IH]; [done|]. cbn [digit_run].
  destruct (is_digit c); [|done]. cbn [String.length take]. by rewrite IH.
Qed.

(** The scan of [findall] for [\b\d+\b]: while it passes the rest of a
    match it stands behind a digit, inside the run. *)
Lemma findall_numbers_from s prev skip :
  (skip ≠ 0%nat ->
   is_word_opt prev = true /\ (skip <= String.length (digit_run s))%nat) ->
  findall_from numbers_re prev s skip = isolated_digit_runs prev s.
Proof.
  revert prev skip. induction s as [|c s IH]; intros prev skip Hskip.
  - cbn [findall_from isolated_digit_runs]. rewrite match_here_numbers.
    by destruct skip.
  - cbn [findall_from isolated_digit_runs].
    destruct skip as [|k].
    + rewrite match_here_numbers.
      destruct (is_digit c && negb (is_word_opt prev)
                && negb (is_word_opt (head (after_digits (String c s))))) eqn:Hm.
      * rewrite take_digit_run. cbn [app]. f_equal.
        apply andb_true_iff in Hm as [Hm _].
        apply andb_true_iff in Hm as [Hd _].
        apply IH. intros _. cbn [is_word_opt digit_run]. rewrite Hd.
        split; [by apply is_digit_word|]. cbn [String.length]. lia.
      * cbn [app]. by apply IH.
    + destruct Hskip as [Hw Hk]; [done|].
      cbn [digit_run] in Hk. destruct (is_digit c) eqn:Hd;
        [|cbn [String.length] in Hk; lia].
      rewrite Hw. rewrite andb_false_r. cbn [andb app].
      apply IH. intros _. cbn [is_word_opt]. split; [by apply is_digit_word|].
      cbn [String.length] in Hk. lia.
Qed.

Lemma findall_numbers text :
  findall numbers_re text = isolated_digit_runs None text.
Proof. by apply findall_numbers_from. Qed.

(** The entry under ['numbers'] is what [findall] returns, unless that is
    empty, in which case there is no entry. *)
Lemma extract_entities_numbers text :
  extract_entities text !! "numbers" =
    match findall numbers_re text with
    | [] => None
    | numbers => Some numbers
    end.
Proof.
  unfold extract_entities. rewrite map_lookup_filter.
  rewrite lookup_insert_ne by done. rewrite lookup_insert_ne by done.
  rewrite lookup_insert_eq. cbn.
  by destruct (findall numbers_re text).
Qed.

End EntityFacts.

Section EntityClaims.
Import PyStr Re IntentRecognizer.

(** C5 as the specification states it fails: digits that touch a letter
    form a maximal run of digits between non-digits, and are not
    extracted. *)
Lemma numbers_digit_runs_counterexample :
  ~ (forall text : string,
        numbers_of (extract_entities text) = digit_runs None text).
Proof.
  intros Hclaim. specialize (Hclaim "abc123").
  unfold numbers_of in Hclaim.
  rewrite extract_entities_numbers, findall_numbers in Hclaim.
  vm_compute in Hclaim. discriminate.
Qed.

(** C5, amended: for every text, the sequence under ['numbers'] consists of
    exactly the maximal runs of decimal digits that have a non-word
    character (neither alphanumeric nor underscore) or a string edge on
    both sides, in order of occurrence, and the key is absent when there is
    none; for the sample sentence the numbers are ["12345"], the emails
    ["test@example.com"], and there is no ['dates'] key. *)
Theorem extract_entities_numbers_isolated :
  (forall text : string,
      numbers_of (extract_entities text) = isolated_digit_runs None text /\
      (extract_entities text !! "numbers" = None
       <-> isolated_digit_runs None text = [])) /\
  extract_entities sample_text !! "numbers" = Some ["12345"] /\
  extract_entities sample_text !! "emails" = Some ["test@example.com"] /\
  extract_entities sample_text !! "dates" = None.
Proof.
  split.
  - intros text. unfold numbers_of.
    rewrite extract_entities_numbers, findall_numbers.
    by destruct (isolated_digit_runs None text).
  - split; [|split]; vm_compute; reflexivity.
Qed.

End EntityClaims.

(** ** Worked sessions *)

Section Sessions.
Import PyStr IntentRecognizer.

(** An underscore is a word character: next to it a keyword earns no
    bonus. *)
Example underscore_earns_no_bonus :
  recognize_intent (shipped_recognizer 1%positive) "hi_there"
  = ("greeting", Qmin ((0 + 1) / 3) 1) /\
  recognize_intent (shipped_recognizer 1%positive) "hi there"
  = ("greeting", Qmin ((0 + 1 + (1 # 2)) / 3) 1).
Proof. split; vm_compute; reflexivity. Qed.

(** Two turns of a text session.  The clarifying prompt follows the intent
    of the turn being answered: it is appended to the answer of a product
    question asked second, and not to the answer of a greeting that comes
    after a product question. *)
Example prompt_follows_current_turn :
  let start := VoiceBot.init (fun _ => true) VoiceBot.startup_ok
                 (Config.load (Some "credentials.json")) ∅ in
  let second (first_text second_text : string) : result string :=
    match start with
    | Ok (bot, h) =>
        let '(_, bot1, h1, tape1) :=
          VoiceBot.process_text_input bot first_text h [0; 0] in
        (VoiceBot.process_text_input bot1 second_text h1 tape1).1.1.1
    | Raise e => Raise e
    end in
  second "hello" "what is the price?"
  = Ok ("I can help you with product information. Which product are you interested in?"
        ++ ResponseGenerator.clarifying_prompt) /\
  second "what is the price?" "hello"
  = Ok "Hello! How can I assist you today?".
Proof. split; vm_compute; reflexivity. Qed.

End Sessions.

(* ===================================================================== *)
(** * Further properties of the modelled code                             *)
(* ===================================================================== *)

(** ** Classification *)

Section ClassifierMore.
Import PyStr Re IntentRecognizer.

Lemma lower_char_idem c : lower_char (lower_char c) = lower_char c.
Proof. destruct c as [[] [] [] [] [] [] [] []]; reflexivity. Qed.

Lemma lower_idem s : lower (lower s) = lower s.
Proof.
  induction s as [|c s IH]; [done|]. cbn [lower].
  by rewrite lower_char_idem, IH.
Qed.

(** X1: classification does not depend on letter case: a text and its
    lowercase form get the same intent and the same confidence. *)
Theorem recognize_intent_case_insensitive (self : IntentRecognizer.t)
    (text : string) :
  recognize_intent self (lower text) = recognize_intent self text.
Proof.
  unfold recognize_intent. rewrite lower_idem. by destruct text.
Qed.

Lemma keyword_value_cases t kw :
  (contains kw t = false /\ (keyword_value t kw == 0)%Q) \/
  (contains kw t = true /\ (1 <= keyword_value t kw)%Q).
Proof.
  unfold keyword_value.
  destruct (contains kw t), (word_bounded kw t); cbv iota;
    [right|right|left|left]; split; try done; lra.
Qed.

Lemma spec_score_zero t kws :
  (spec_score t kws <= 0)%Q <-> Forall (fun kw => contains kw t = false) kws.
Proof.
  induction kws as [|kw kws IH]; cbn [spec_score fold_right].
  - split; [constructor|lra].
  - fold (spec_score t kws). rewrite Forall_cons, <- IH.
    pose proof (spec_score_nonneg t kws).
    destruct (keyword_value_cases t kw) as [[Hc Hv]|[Hc Hv]]; rewrite Hc.
    + split; [intros; split; [done|lra]|intros [_ ?]; lra].
    + split; [intros; lra|by intros [? _]].
Qed.

Lemma spec_score_positive t kws :
  (0 < spec_score t kws)%Q ->
  (1 <= spec_score t kws)%Q /\ Exists (fun kw => contains kw t = true) kws.
Proof.
  induction kws as [|kw kws IH]; cbn [spec_score fold_right]; [lra|].
  fold (spec_score t kws). intros Hpos.
  pose proof (spec_score_nonneg t kws).
  destruct (keyword_value_cases t kw) as [[Hc Hv]|[Hc Hv]].
  - destruct IH as [Hge Hex]; [lra|]. split; [lra|]. by right.
  - split; [lra|]. by left.
Qed.

Lemma intent_score_zero t kws :
  (intent_score t kws <= 0)%Q <-> Forall (fun kw => contains kw t = false) kws.
Proof. rewrite intent_score_spec. apply spec_score_zero. Qed.

(** X2: the confidence is 0 exactly when the text is empty or none of the
    configured keywords occurs in its lowercase form; the classifier then
    answers [unknown]. *)
Theorem confidence_zero_iff_no_keyword (self : IntentRecognizer.t)
    (text : string) :
  (((recognize_intent self text).2 == 0)%Q <->
   text = "" \/ no_keyword_occurs (intent_keywords self) (lower text)) /\
  (((recognize_intent self text).2 == 0)%Q ->
   recognize_intent self text = ("unknown", 0%Q)).
Proof.
  destruct (recognize_intent_cases self text)
    as [[Hr Hwhy]|(Hne & pre & intent & kws & post & Hcfg & Hr & Hpos & _)];
    rewrite Hr; cbn [fst snd].
  - split; [|done]. split; [intros _|done].
    destruct Hwhy as [->|Hz]; [by left|right].
    eapply Forall_impl; [exact Hz|]. cbn. intros e. apply intent_score_zero.
  - set (sc := intent_score (lower text) kws) in *.
    assert (Hthird : (0 < sc / 3)%Q) by (apply Qlt_shift_div_l; lra).
    assert (Hconf : (0 < Qmin (sc / 3) 1)%Q)
      by (destruct (Q.min_spec (sc / 3) 1) as [[_ ->]|[_ ->]]; lra).
    split; [|intros; lra]. split; [intros; lra|].
    intros [->|Hnone]; [done|]. exfalso.
    unfold no_keyword_occurs in Hnone. rewrite Hcfg in Hnone.
    apply Forall_app in Hnone as [_ Hnone].
    apply Forall_cons in Hnone as [Hk _]. cbn [snd] in Hk.
    apply intent_score_zero in Hk. subst sc. lra.
Qed.

(** X3: a confidence that is not 0 is positive and at most 1, and the
    intent returned with it is a configured intent one of whose keywords
    occurs in the lowercase text; the score of that intent is at least 1,
    and the confidence is 1 exactly when the score is at least 3. *)
Theorem positive_confidence_bounds (self : IntentRecognizer.t)
    (text : string) :
  let r := recognize_intent self text in
  (r.2 == 0)%Q \/
  ((0 < r.2)%Q /\ (r.2 <= 1)%Q /\
   exists kws,
     (r.1, kws) ∈ intent_keywords self /\
     Exists (fun kw => contains kw (lower text) = true) kws /\
     (1 <= intent_score (lower text) kws)%Q /\
     ((r.2 == 1)%Q <-> (3 <= intent_score (lower text) kws)%Q)).
Proof.
  intros r. subst r.
  destruct (recognize_intent_cases self text)
    as [[Hr _]|(Hne & pre & intent & kws & post & Hcfg & Hr & Hpos & _)];
    rewrite Hr; cbn [fst snd]; [by left|right].
  rewrite intent_score_spec in Hpos.
  destruct (spec_score_positive _ _ Hpos) as [Hge Hex].
  rewrite <- intent_score_spec in Hge.
  set (sc := intent_score (lower text) kws) in *.
  assert (Hthird : (1 # 3 <= sc / 3)%Q) by (apply Qle_shift_div_l; lra).
  assert (Hdiv : (sc == 3 * (sc / 3))%Q) by (field; lra).
  split; [|split].
  - destruct (Q.min_spec (sc / 3) 1) as [[_ ->]|[_ ->]]; lra.
  - destruct (Q.min_spec (sc / 3) 1) as [[? ->]|[_ ->]]; lra.
  - exists kws. split; [|split; [done|split; [done|]]].
    + rewrite Hcfg. apply elem_of_app. right. by left.
    + fold sc. destruct (Q.min_spec (sc / 3) 1) as [[? ->]|[? ->]]; split; lra.
Qed.

End ClassifierMore.

(** ** Entities *)

Section EntitiesMore.
Import PyStr Re IntentRecognizer.

(** The entry of a category in the result: what [findall] returned for
    it, when that is not empty. *)
Lemma extract_entities_lookup text k v :
  extract_entities text !! k = Some v ->
  v ≠ [] /\
  ((k = "numbers" /\ v = findall numbers_re text) \/
   (k = "emails" /\ v = findall emails_re text) \/
   (k = "dates" /\ v = findall dates_re text)).
Proof.
  unfold extract_entities. intros [Hk Hv]%map_lookup_filter_Some.
  cbn [snd] in Hv. split; [done|].
  rewrite !lookup_insert in Hk.
  repeat case_decide; simplify_eq; eauto 6.
Qed.

(** X4: the mapping that [extract_entities] returns has no other keys than
    [numbers], [emails] and [dates] (never [products]), and no key with an
    empty sequence. *)
Theorem extract_entities_keys (text k : string) (v : list string) :
  extract_entities text !! k = Some v ->
  v ≠ [] /\ (k = "numbers" \/ k = "emails" \/ k = "dates").
Proof.
  intros Hk. destruct (extract_entities_lookup _ _ _ Hk) as [Hv Hcase].
  split; [done|]. destruct Hcase as [[-> _]|[[-> _]|[-> _]]]; auto.
Qed.

Lemma extract_entities_keys_witness :
  extract_entities sample_text !! "emails" = Some ["test@example.com"] /\
  ["test@example.com"] ≠ [] /\
  ("emails" = "numbers" \/ "emails" = "emails" \/ "emails" = "dates").
Proof.
  assert (Hk : extract_entities sample_text !! "emails"
               = Some ["test@example.com"]) by (vm_compute; reflexivity).
  split; [exact Hk|]. exact (extract_entities_keys _ _ _ Hk).
Defined.

Lemma prefix_take n s : String.prefix (take n s) s = true.
Proof.
  revert n. induction s as [|c s IH]; intros [|n]; try done.
  cbn [take]. rewrite prefix_cons, IH.
  by destruct (Ascii.eqb_spec c c).
Qed.

Lemma contains_cons sub c s : contains sub s = true -> contains sub (String c s) = true.
Proof. intros H. cbn [contains]. rewrite H. apply orb_true_r. Qed.

Lemma contains_prefix sub s : String.prefix sub s = true -> contains sub s = true.
Proof. intros H. destruct s; cbn [contains]; by rewrite H. Qed.

(** Whatever the pattern, the matches that [findall] returns are pieces of
    the text. *)
Lemma findall_from_contains re prev s skip m :
  m ∈ findall_from re prev s skip -> contains m s = true.
Proof.
  revert prev skip. induction s as [|c s IH]; intros prev skip.
  - cbn [findall_from]. destruct skip; [|by intros ?%elem_of_nil].
    destruct (match_here re prev ""); [|by intros ?%elem_of_nil].
    by intros ->%list_elem_of_singleton.
  - cbn [findall_from]. destruct skip as [|k].
    + destruct (match_here re prev (String c s)) as [n|].
      * intros [->|Hin]%elem_of_cons.
        -- apply contains_prefix, prefix_take.
        -- apply contains_cons. by eapply IH.
      * intros Hin. apply contains_cons. by eapply IH.
    + intros Hin. apply contains_cons. by eapply IH.
Qed.

(** X5: every value that [extract_entities] returns, in whatever category,
    occurs literally in the text. *)
Theorem extract_entities_values_occur (text k : string) (v : list string)
    (m : string) :
  extract_entities text !! k = Some v -> m ∈ v -> contains m text = true.
Proof.
  intros Hk Hm. destruct (extract_entities_lookup _ _ _ Hk) as [_ Hcase].
  destruct Hcase as [[_ ->]|[[_ ->]|[_ ->]]];
    by eapply findall_from_contains.
Qed.

Lemma extract_entities_values_occur_witness :
  extract_entities sample_text !! "numbers" = Some ["12345"] /\
  "12345" ∈ ["12345"] /\
  contains "12345" sample_text = true.
Proof.
  assert (Hk : extract_entities sample_text !! "numbers" = Some ["12345"])
    by (vm_compute; reflexivity).
  assert (Hm : "12345" ∈ ["12345"]) by (by left).
  split; [exact Hk|]. split; [exact Hm|].
  exact (extract_entities_values_occur _ _ _ _ Hk Hm).
Defined.

Lemma digit_run_digits s : all_digits (digit_run s) = true.
Proof.
  induction s as [|c s IH]; [done|]. cbn [digit_run].
  destruct (is_digit c) eqn:Hd; [|done]. cbn [all_digits]. by rewrite Hd, IH.
Qed.

Lemma isolated_digit_runs_digits prev s m :
  m ∈ isolated_digit_runs prev s -> m ≠ "" /\ all_digits m = true.
Proof.
  revert prev. induction s as [|c s IH]; intros prev; cbn [isolated_digit_runs].
  - by intros ?%elem_of_nil.
  - intros [Hin|Hin]%elem_of_app; [|by eapply IH].
    destruct (is_digit c) eqn:Hd; cbn [andb] in Hin;
      [|by apply elem_of_nil in Hin].
    destruct (negb _ && negb _); [|by apply elem_of_nil in Hin].
    apply list_elem_of_singleton in Hin as ->.
    split; [|apply digit_run_digits]. cbn [digit_run]. by rewrite Hd.
Qed.

(** X6: every value under [numbers] is a non-empty string of decimal
    digits. *)
Theorem extracted_numbers_are_digits (text : string) (v : list string)
    (m : string) :
  extract_entities text !! "numbers" = Some v -> m ∈ v ->
  m ≠ "" /\ all_digits m = true.
Proof.
  rewrite extract_entities_numbers, findall_numbers.
  destruct (isolated_digit_runs None text) as [|x l] eqn:Hruns; [done|].
  intros [= <-] Hm. rewrite <- Hruns in Hm.
  by eapply isolated_digit_runs_digits.
Qed.

Lemma extracted_numbers_are_digits_witness :
  extract_entities sample_text !! "numbers" = Some ["12345"] /\
  "12345" ≠ "" /\ all_digits "12345" = true.
Proof.
  assert (Hk : extract_entities sample_text !! "numbers" = Some ["12345"])
    by (vm_compute; reflexivity).
  assert (Hm : "12345" ∈ ["12345"]) by (by left).
  split; [exact Hk|].
  exact (extracted_numbers_are_digits _ _ _ Hk Hm).
Defined.

End EntitiesMore.

(** ** The conversation context across calls *)

Section ContextMore.
Import IntentRecognizer.

Lemma setitem_setitem h l k v k' v' :
  setitem (setitem h l k v) l k' v'
  = <[l := <[k' := v']> (<[k := v]> (deref h l))]> h.
Proof.
  unfold setitem at 1. rewrite deref_setitem. unfold setitem.
  apply insert_insert_eq.
Qed.

Lemma update_context_unfold self intent entities h :
  update_context self intent entities h =
    <[context self :=
        <["last_entities" := VEntities entities]>
          (<["last_intent" := VStr intent]> (deref h (context self)))]> h.
Proof. apply setitem_setitem. Qed.

Lemma update_context_overwrites self i1 e1 i2 e2 h :
  update_context self i2 e2 (update_context self i1 e1 h)
  = update_context self i2 e2 h.
Proof.
  rewrite !update_context_unfold, deref_insert, insert_insert_eq.
  f_equal. apply map_eq. intros k.
  rewrite !lookup_insert. by repeat case_decide.
Qed.

(** X7: the context is overwritten, not merged: analysing a text after
    another one gives the same result and leaves the same state as
    analysing it alone, so that a text analysed twice in a row (as the
    text session does for each turn) changes nothing the second time. *)
Theorem analyze_query_overwrites (self : IntentRecognizer.t)
    (first_text text : string) (h : Heap) :
  analyze_query self text (analyze_query self first_text h).2
  = analyze_query self text h.
Proof.
  rewrite !analyze_query_unfold. cbn [snd].
  by rewrite update_context_overwrites.
Qed.

(** X8: [clear_context] gives the recognizer a new, empty context and
    leaves the old dict alone: a reference obtained earlier from
    [get_context] or [analyze_query] still shows the old items and is no
    longer the recognizer's context. *)
Theorem clear_context_leaves_old_reference (self : IntentRecognizer.t)
    (h : Heap) :
  is_Some (h !! context self) ->
  let old := get_context self in
  let self' := (clear_context self h).1 in
  let h' := (clear_context self h).2 in
  deref h' (get_context self') = ∅ /\
  get_context self' ≠ old /\
  deref h' old = deref h old /\
  intent_keywords self' = intent_keywords self.
Proof.
  intros Halloc old self' h'. subst old self' h'.
  unfold clear_context, alloc, get_context. cbn [fst snd context].
  assert (Hne : fresh (dom h) ≠ context self).
  { intros Heq. apply (is_fresh (dom h)). rewrite Heq.
    by apply elem_of_dom. }
  split; [apply deref_insert|]. split; [done|]. split; [|done].
  unfold deref. by rewrite lookup_insert_ne.
Qed.

Lemma clear_context_leaves_old_reference_witness :
  let fresh_bot := init (Config.load None) ∅ in
  let turn := analyze_query fresh_bot.1 "hello" fresh_bot.2 in
  is_Some (turn.2 !! context fresh_bot.1) /\
  deref (clear_context fresh_bot.1 turn.2).2
    (get_context (clear_context fresh_bot.1 turn.2).1) = ∅ /\
  deref (clear_context fresh_bot.1 turn.2).2 (a_context turn.1)
    !! "last_intent" = Some (VStr "greeting").
Proof.
  intros fresh_bot turn.
  assert (Halloc : is_Some (turn.2 !! context fresh_bot.1))
    by (vm_compute; eauto).
  split; [exact Halloc|].
  destruct (clear_context_leaves_old_reference fresh_bot.1 turn.2 Halloc)
    as (Hempty & _ & Hold & _).
  split; [exact Hempty|].
  change (a_context turn.1) with (get_context fresh_bot.1).
  rewrite Hold. vm_compute. reflexivity.
Defined.

(** X9: recognizers do not share their context: of two recognizers created
    one after the other, the second gets a dict of its own, and analysing a
    text with it leaves the context of the first as it was. *)
Theorem recognizers_have_separate_contexts (cfg cfg' : Config.t)
    (h : Heap) (text : string) :
  let first := init cfg h in
  let second := init cfg' first.2 in
  context second.1 ≠ context first.1 /\
  deref (analyze_query second.1 text second.2).2 (context first.1)
  = deref first.2 (context first.1).
Proof.
  intros first second. subst first second.
  unfold init, alloc. cbn [fst snd context].
  set (l1 := fresh (dom h)). set (h1 := <[l1 := ∅]> h).
  set (l2 := fresh (dom h1)).
  assert (Hne : l2 ≠ l1).
  { intros Heq. apply (is_fresh (dom h1)). fold l2. rewrite Heq.
    apply elem_of_dom. unfold h1. rewrite lookup_insert_eq. by eexists. }
  split; [done|].
  rewrite analyze_query_unfold, update_context_unfold. cbn [snd context].
  unfold deref. rewrite !lookup_insert_ne by done. done.
Qed.

End ContextMore.

(** ** The template stage, further *)

Section TemplateMore.
Import PyStr ResponseGenerator.

Lemma append_assoc (a b c : string) : (a ++ b) ++ c = a ++ (b ++ c).
Proof.
  induction a as [|x a IH]; [done|].
  change (String x ((a ++ b) ++ c) = String x (a ++ (b ++ c))).
  by rewrite IH.
Qed.

Lemma prefix_append (a b : string) : String.prefix a (a ++ b) = true.
Proof.
  induction a as [|x a IH]; [by destruct b|].
  change (String.prefix (String x a) (String x (a ++ b)) = true).
  rewrite prefix_cons, IH. by destruct (Ascii.eqb_spec x x).
Qed.

(** Enhancing only adds text after the chosen template. *)
Lemma enhanced_extends intent entities chosen :
  exists suffix,
    enhanced intent entities chosen = chosen ++ suffix /\
    (entities_truthy entities = false -> suffix = "").
Proof.
  unfold enhanced. destruct entities as [e|]; [|exists ""; by rewrite append_empty_r].
  destruct (entities_truthy (Some e)); cbn [andb];
    [|exists ""; by rewrite append_empty_r].
  destruct (bool_decide _); [|exists ""; by rewrite append_empty_r].
  unfold _enhance_with_entities.
  destruct (e !! "numbers") as [[|num ?]|], (e !! "emails") as [[|email ?]|];
    try (exists ""; by rewrite append_empty_r);
    try (eexists; split; [reflexivity|done]);
    rewrite append_assoc; eexists; split; try reflexivity; done.
Qed.

(** X10: with a usable catalog the template stage returns a response that
    begins with one of the templates configured for the intent (those of
    [unknown] when the intent has none); without entities and context the
    response is that template itself. *)
Theorem template_response_begins_with_template (w : world) (intent : string)
    (entities : option Entities) (context : option Context) :
  catalog_ok (response_templates (self w)) ->
  exists resp template,
    (generate_response intent entities context w).1 = Ok resp /\
    template ∈ templates_for (response_templates (self w)) intent /\
    String.prefix template resp = true /\
    (entities_truthy entities = false -> context_truthy context = false ->
     resp = template).
Proof.
  intros Hok. pose proof (templates_for_nonempty _ intent Hok) as Hne.
  destruct (templates_for (response_templates (self w)) intent)
    as [|x l] eqn:Hl; [done|].
  rewrite (generate_response_ok _ _ _ _ x l) by (try apply Hok; done).
  cbn [fst].
  set (chosen := nth (hd 0%nat (rng w) mod length (x :: l)) (x :: l) x).
  destruct (enhanced_extends intent entities chosen) as (suffix & -> & Hplain).
  eexists _, chosen. split; [reflexivity|].
  split; [apply chosen_in_entry|]. split.
  - rewrite append_assoc. apply prefix_append.
  - intros He Hc. rewrite (Hplain He), append_empty_r.
    unfold context_tail. destruct context as [c|]; [|apply append_empty_r].
    rewrite Hc. apply append_empty_r.
Qed.

Lemma template_response_begins_with_template_witness :
  catalog_ok (response_templates (self (fresh_world [4]))) /\
  exists resp template,
    (generate_response "farewell" None None (fresh_world [4])).1 = Ok resp /\
    template ∈ templates_for (response_templates (self (fresh_world [4])))
                 "farewell" /\
    String.prefix template resp = true /\
    (entities_truthy None = false -> context_truthy None = false ->
     resp = template).
Proof.
  split; [exact RESPONSE_TEMPLATES_ok|].
  exact (template_response_begins_with_template (fresh_world [4]) "farewell"
           None None RESPONSE_TEMPLATES_ok).
Defined.

(** X11: entities are used for [order_status] and [product_info] only:
    for any other intent a call with entities does what the call without
    them does. *)
Theorem entities_ignored_for_other_intents (w : world) (intent : string)
    (entities : option Entities) (context : option Context) :
  intent ∉ ["order_status"; "product_info"] ->
  generate_response intent entities context w
  = generate_response intent None context w.
Proof.
  intros Hintent. unfold generate_response.
  destruct entities as [e|]; [|done].
  by rewrite (bool_decide_eq_false_2 _ Hintent), andb_false_r.
Qed.

Lemma entities_ignored_for_other_intents_witness :
  ("greeting" ∉ ["order_status"; "product_info"]) /\
  generate_response "greeting" (Some {[ "numbers" := ["12345"] ]}) None
    (fresh_world [1])
  = generate_response "greeting" None None (fresh_world [1]).
Proof.
  assert (Hintent : "greeting" ∉ ["order_status"; "product_info"]).
  { intros Hin. repeat (apply elem_of_cons in Hin as [Hin|Hin]; [discriminate|]).
    by apply elem_of_nil in Hin. }
  split; [exact Hintent|].
  exact (entities_ignored_for_other_intents (fresh_world [1]) "greeting"
           (Some {[ "numbers" := ["12345"] ]}) None Hintent).
Defined.

(** X12: a call of the template stage either returns a response, and then
    appends exactly one entry to the history, holding the intent and the
    returned text and no method, and uses exactly one random draw; or it
    raises, which it does only with [KeyError] for a missing [unknown]
    entry or [IndexError] for an empty entry, and then changes nothing. *)
Theorem generate_response_bookkeeping (w : world) (intent : string)
    (entities : option Entities) (context : option Context) :
  match generate_response intent entities context w with
  | (Ok resp, w') =>
      w' = recorded {| self := self w; rng := tl (rng w) |} intent resp None
  | (Raise e, w') =>
      w' = w /\
      ((e = KeyError "unknown" /\ response_templates (self w) !! "unknown" = None)
       \/ (e = IndexError /\
           templates_for (response_templates (self w)) intent = []))
  end.
Proof.
  destruct (response_templates (self w) !! "unknown") as [dflt|] eqn:Hd.
  - destruct (templates_for (response_templates (self w)) intent)
      as [|x l] eqn:Hl.
    + rewrite generate_response_empty_entry by eauto. split; [done|by right].
    + by rewrite (generate_response_ok _ _ _ _ x l) by eauto.
  - rewrite generate_response_no_unknown by done. split; [done|by left].
Qed.

(** X13: the context changes the response in one case only, a
    [last_intent] equal to [product_info] met with a non-empty history: on
    a first call, or with any other context, the call does what the call
    without context does. *)
Theorem context_matters_only_for_product_followup (w : world)
    (intent : string) (entities : option Entities) (c : Context) :
  (conversation_history (self w) = [])
  \/ (c !! "last_intent" ≠ Some (VStr "product_info")) ->
  generate_response intent entities (Some c) w
  = generate_response intent entities None w.
Proof. apply context_ignored. Qed.

Lemma context_matters_only_for_product_followup_witness :
  let c : Context := {[ "last_intent" := VStr "order_status" ]} in
  (conversation_history (self (second_turn_world [0])) = []
   \/ (c !! "last_intent" ≠ Some (VStr "product_info"))) /\
  generate_response "order_status" None (Some c) (second_turn_world [0])
  = generate_response "order_status" None None (second_turn_world [0]).
Proof.
  intros c.
  assert (Hcond : conversation_history (self (second_turn_world [0])) = []
                  \/ (c !! "last_intent" ≠ Some (VStr "product_info")))
    by (right; discriminate).
  split; [exact Hcond|].
  exact (context_matters_only_for_product_followup (second_turn_world [0])
           "order_status" None c Hcond).
Defined.

(** X14: [clear_history] empties the history and keeps the catalog, the
    settings, the database and the random state; the response that follows
    is built as on a first call, whatever the context says. *)
Theorem clear_history_resets_followup (w : world) (intent : string)
    (entities : option Entities) (c : Context) :
  let w' := (clear_history w).2 in
  (clear_history w).1 = Ok tt /\
  conversation_history (self w') = [] /\
  response_templates (self w') = response_templates (self w) /\
  use_ai_model (self w') = use_ai_model (self w) /\
  ai_client (self w') = ai_client (self w) /\
  database (self w') = database (self w) /\
  rng w' = rng w /\
  generate_response intent entities (Some c) w'
  = generate_response intent entities None w'.
Proof.
  intros w'. subst w'. unfold clear_history, set_history. cbn [fst snd].
  repeat (split; [done|]). apply context_ignored. by left.
Qed.

(** X15: [generate_error_response] never raises: whatever the random
    state, it returns one of its three messages, uses one draw, and leaves
    the generator, its history included, as it was. *)
Theorem generate_error_response_total (w : world) :
  exists msg,
    generate_error_response w
    = (Ok msg, {| self := self w; rng := tl (rng w) |}) /\
    msg ∈ error_responses.
Proof.
  unfold generate_error_response, random_choice, Random.choice, error_responses.
  eexists. split; [reflexivity|]. apply chosen_in_entry.
Qed.

End TemplateMore.

(** ** The fallback chain, further *)

Section ChainMore.
Import PyStr ResponseGenerator AdvancedResponseGenerator.

Variable dict_repr : Entities -> string.

Lemma str_truthy_nonempty q : q ≠ "" -> str_truthy (Some q) = true.
Proof. intros Hq. cbn. by destruct (String.eqb_spec q ""). Qed.

(** X16: when the database holds a record that matches the query and has
    a non-empty answer, the advanced [generate_response] returns that
    answer, whatever the generative settings and the catalog are; the
    lookup counts as a use of the record, but no random draw is used and
    the answer is not recorded in the conversation history. *)
Theorem faq_answer_is_returned (depth : nat) (w : world) (intent : string)
    (entities : option Entities) (context : option Context) (q : string)
    (db db' : Database.t) (m : Database.faq_match) :
  database (self w) = Some db ->
  q ≠ "" ->
  Database.get_faq_by_keywords (split (lower q)) db = (Ok (Some m), db') ->
  Database.m_answer m ≠ "" ->
  generate_response dict_repr (S depth) intent entities context (Some q) w
  = (Ok (Database.m_answer m), with_database w db').
Proof.
  intros Hdb Hq Hget Hans. rewrite generate_response_stages.
  unfold faq_stage. rewrite Hdb, (str_truthy_nonempty q Hq).
  rewrite _check_faq_unfold, Hdb, Hget. cbn [fst snd].
  by rewrite (str_truthy_nonempty _ Hans).
Qed.

Lemma generate_response_ai_unfold self_generate_response intent q entities
    context w :
  generate_response_ai dict_repr self_generate_response intent q entities
    context w =
    match ai_client (self w) with
    | None => self_generate_response intent entities context None w
    | Some create =>
        try_except
          (match completion_text
                   (create system_prompt
                      (user_prompt dict_repr intent q entities context)) with
           | Raise e => raise e
           | Ok ai_response =>
               _ <- append_history {| h_intent := intent;
                                      h_response := ai_response;
                                      h_method := Some "ai" |} ;;
               ret ai_response
           end)
          (fun _ => ResponseGenerator.generate_response intent entities context)
          w
    end.
Proof.
  unfold generate_response_ai, bind at 1, get_self.
  by destruct (ai_client (self w)).
Qed.

(** X18: when no database is configured, the generative stage is on and
    the service answers, the advanced [generate_response] returns the
    completion stripped of surrounding whitespace and records it in the
    history with method [ai]; it uses no random draw and does not consult
    the template catalog. *)
Theorem ai_completion_is_returned (depth : nat) (w : world) (intent : string)
    (entities : option Entities) (context : option Context) (q : string)
    (create : client) (content : string) (rest : list (option string)) :
  database (self w) = None ->
  use_ai_model (self w) = true ->
  ai_client (self w) = Some create ->
  q ≠ "" ->
  create system_prompt (user_prompt dict_repr intent q entities context)
  = Choices (Some content :: rest) ->
  generate_response dict_repr (S depth) intent entities context (Some q) w
  = (Ok (strip content), recorded w intent (strip content) (Some "ai")).
Proof.
  intros Hdb Huse Hclient Hq Hcreate. rewrite generate_response_stages.
  unfold faq_stage. rewrite Hdb. cbn [ret str_truthy].
  unfold later_stages. rewrite Huse, Hclient, (str_truthy_nonempty q Hq).
  rewrite bool_decide_eq_true_2 by eauto. cbn [andb].
  unfold try_except at 1. rewrite generate_response_ai_unfold, Hclient.
  unfold try_except. rewrite Hcreate. cbn [completion_text].
  done.
Qed.

End ChainMore.

Section ChainWitnesses.
Import PyStr ResponseGenerator AdvancedResponseGenerator.

Lemma ai_completion_is_returned_witness :
  let create : client := fun _ _ => Choices [Some "  Happy to help!  "] in
  let w := {| self := {| response_templates := ∅;
                         conversation_history := [];
                         use_ai_model := true; ai_client := Some create;
                         database := None |};
              rng := [] |} in
  "hello" ≠ "" /\
  generate_response (fun _ => "{}") 1 "greeting" None None (Some "hello") w
  = (Ok "Happy to help!", recorded w "greeting" "Happy to help!" (Some "ai")).
Proof.
  intros create w.
  assert (Hq : "hello" ≠ "") by discriminate.
  split; [exact Hq|].
  exact (ai_completion_is_returned (fun _ => "{}") 0 w "greeting" None None
           "hello" create "  Happy to help!  " [] eq_refl eq_refl eq_refl Hq
           eq_refl).
Defined.

End ChainWitnesses.

Lemma faq_answer_is_returned_witness :
  let row := {| Database.id := 1;
                Database.question := "How can I track my order?";
                Database.answer := "Give us your order number.";
                Database.category := "orders";
                Database.keywords := ["track"; "order"];
                Database.usage_count := 0 |} in
  let db := {| Database.db_type := "sqlite"; Database.faqs := [row] |} in
  let db' := {| Database.db_type := "sqlite";
                Database.faqs := [used_once row] |} in
  let w := {| ResponseGenerator.self :=
                {| ResponseGenerator.response_templates := Config.RESPONSE_TEMPLATES;
                   ResponseGenerator.conversation_history := [];
                   ResponseGenerator.use_ai_model := false;
                   ResponseGenerator.ai_client := None;
                   ResponseGenerator.database := Some db |};
              ResponseGenerator.rng := [5] |} in
  "Track my ORDER" ≠ "" /\
  Database.m_answer (Database.match_of row) ≠ "" /\
  AdvancedResponseGenerator.generate_response (fun _ => "{}") 1 "order_status"
    None None (Some "Track my ORDER") w
  = (Ok "Give us your order number.", with_database w db').
Proof.
  intros row db db' w.
  assert (Hq : "Track my ORDER" ≠ "") by discriminate.
  assert (Hans : Database.m_answer (Database.match_of row) ≠ "") by discriminate.
  split; [exact Hq|]. split; [exact Hans|].
  exact (faq_answer_is_returned (fun _ => "{}") 0 w "order_status" None None
           "Track my ORDER" db db' (Database.match_of row) eq_refl Hq eq_refl
           Hans).
Defined.

Section InitMore.
Import PyStr ResponseGenerator AdvancedResponseGenerator.

(** X19: [AdvancedResponseGenerator.__init__] never leaves the generative
    stage switched on without a client: the flag is set exactly when a
    client was built, which takes the request, the library, a non-empty
    key (the argument, else the environment) and a constructor that does
    not raise; the history starts empty and the catalog and database are
    the ones given. *)
Theorem init_ai_flag_matches_client (cfg : Config.t) (use_ai : bool)
    (OPENAI_AVAILABLE : bool) (api_key env_key : option string)
    (OpenAI : string -> result client) (db : option Database.t) :
  let g := init cfg use_ai OPENAI_AVAILABLE api_key env_key OpenAI db in
  (use_ai_model g = true <-> is_Some (ai_client g)) /\
  (use_ai_model g = true ->
   use_ai = true /\ OPENAI_AVAILABLE = true /\
   exists key,
     key ≠ "" /\ OpenAI key = Ok (default (fun _ _ => CallRaises) (ai_client g)) /\
     (api_key = Some key \/ (str_truthy api_key = false /\ env_key = Some key))) /\
  conversation_history g = [] /\
  response_templates g = Config.response_templates cfg /\
  database g = db.
Proof.
  intros g. subst g. unfold init.
  assert (Hoff : forall P : Prop, (false = true <-> is_Some (@None client)) /\
                      (false = true -> P)).
  { intros P. split; [|done]. split; [done|]. by intros [? ?]. }
  destruct use_ai, OPENAI_AVAILABLE; cbn [andb];
    try (split; [apply (Hoff True)|]; split; [apply Hoff|done]).
  destruct (str_truthy api_key) eqn:Hkey.
  - destruct api_key as [key|]; [|done]. rewrite Hkey.
    destruct (OpenAI key) as [c|e] eqn:Hc; cbn;
      [|split; [apply (Hoff True)|]; split; [apply Hoff|done]].
    split; [split; eauto|]. split; [|done].
    intros _. split; [done|]. split; [done|].
    exists key. split; [|split; [done|by left]].
    intros ->. done.
  - destruct env_key as [key|];
      [|split; [apply (Hoff True)|]; split; [apply Hoff|done]].
    destruct (str_truthy (Some key)) eqn:Henv;
      [|split; [apply (Hoff True)|]; split; [apply Hoff|done]].
    destruct (OpenAI key) as [c|e] eqn:Hc; cbn;
      [|split; [apply (Hoff True)|]; split; [apply Hoff|done]].
    split; [split; eauto|]. split; [|done].
    intros _. split; [done|]. split; [done|].
    exists key. split; [|split; [done|by right]].
    intros ->. done.
Qed.

End InitMore.

Lemma init_ai_flag_matches_client_witness :
  let OpenAI : string -> result ResponseGenerator.client :=
    fun _ => Ok (fun _ _ => ResponseGenerator.Choices [Some "Hello."]) in
  let g := AdvancedResponseGenerator.init (Config.load None) true true None
             (Some "sk-test") OpenAI None in
  ResponseGenerator.use_ai_model g = true /\
  is_Some (ResponseGenerator.ai_client g) /\
  exists key,
    key ≠ "" /\
    OpenAI key
    = Ok (default (fun _ _ => ResponseGenerator.CallRaises)
            (ResponseGenerator.ai_client g)) /\
    (None = Some key
     \/ (AdvancedResponseGenerator.str_truthy None = false
         /\ Some "sk-test" = Some key)).
Proof.
  intros OpenAI g.
  destruct (init_ai_flag_matches_client (Config.load None) true true None
              (Some "sk-test") OpenAI None) as (Hiff & Hwhy & _).
  assert (Hon : ResponseGenerator.use_ai_model g = true) by reflexivity.
  split; [exact Hon|]. split; [exact (proj1 Hiff Hon)|].
  exact (proj2 (proj2 (Hwhy Hon))).
Defined.

(** ** The knowledge base, further *)

Section KnowledgeBaseMore.
Import PyStr Database.

Lemma increment_usage_other key rows :
  Forall (fun r => id r ≠ key) rows -> increment_usage key rows = rows.
Proof.
  induction 1 as [|r rows Hr _ IH]; [done|].
  unfold increment_usage in *. cbn [map]. rewrite IH.
  by destruct (Z.eqb_spec (id r) key).
Qed.

Lemma increment_usage_split pre row post :
  NoDup (map id (pre ++ row :: post)) ->
  increment_usage (id row) (pre ++ row :: post) = (pre ++ used_once row :: post)%list.
Proof.
  rewrite map_app. cbn [map]. intros Hnd.
  apply NoDup_app in Hnd as (_ & Hdisj & Hnd).
  apply NoDup_cons in Hnd as [Hpost _].
  assert (Hpre : Forall (fun r => id r ≠ id row) pre).
  { apply Forall_forall. intros r Hr Heq.
    apply (Hdisj (id r)); [by apply list_elem_of_fmap_2|]. rewrite Heq. by left. }
  assert (Hpost' : Forall (fun r => id r ≠ id row) post).
  { apply Forall_forall. intros r Hr Heq. apply Hpost. rewrite <- Heq.
    by apply list_elem_of_fmap_2. }
  unfold increment_usage. rewrite map_app. cbn [map].
  fold (increment_usage (id row) pre). fold (increment_usage (id row) post).
  rewrite !increment_usage_other by done.
  by rewrite Z.eqb_refl.
Qed.

(** X20: with ids that are unique, a successful lookup counts as one use
    of the record it returns and of no other: that row's [usage_count]
    grows by 1 and every other row, the order and the number of rows stay
    as they were; the count handed back is the one from before; a lookup
    that finds nothing leaves the database unchanged. *)
Theorem get_faq_by_keywords_counts_one_use (self : Database.t)
    (tokens : list string) :
  db_type self = "sqlite" ->
  NoDup (map id (faqs self)) ->
  match get_faq_by_keywords tokens self with
  | (Ok (Some m), self') =>
      exists pre row post,
        faqs self = (pre ++ row :: post)%list /\
        m = match_of row /\
        faqs self' = (pre ++ used_once row :: post)%list /\
        db_type self' = db_type self
  | (Ok None, self') => self' = self
  | (Raise _, _) => False
  end.
Proof.
  intros Hsql Hnd.
  unfold get_faq_by_keywords, get_connection. rewrite Hsql. cbn [String.eqb].
  pose proof (faq_loop_first_best tokens (faqs self)) as Hbest.
  destruct (fold_left (faq_step tokens) (faqs self) (None, 0%nat)) as [bm bs].
  unfold first_best in Hbest. cbn [fst snd] in Hbest.
  destruct bm as [m|]; [|done].
  destruct Hbest as (pre & row & post & Hrows & -> & _).
  exists pre, row, post. split; [done|]. split; [done|]. split; [|done].
  cbn [faqs match_of m_id]. rewrite Hrows in Hnd |- *.
  by apply increment_usage_split.
Qed.

Lemma get_faq_by_keywords_counts_one_use_witness :
  let row1 := {| id := 1; question := "Q1"; answer := "A1"; category := "c";
                 keywords := ["refund"]; usage_count := 4 |} in
  let row2 := {| id := 2; question := "Q2"; answer := "A2"; category := "c";
                 keywords := ["order"]; usage_count := 0 |} in
  let db := {| db_type := "sqlite"; faqs := [row1; row2] |} in
  NoDup (map id (faqs db)) /\
  get_faq_by_keywords ["my"; "order"] db
  = (Ok (Some (match_of row2)),
     {| db_type := "sqlite"; faqs := [row1; used_once row2] |}) /\
  match get_faq_by_keywords ["my"; "order"] db with
  | (Ok (Some m), self') =>
      exists pre row post,
        faqs db = (pre ++ row :: post)%list /\
        m = match_of row /\
        faqs self' = (pre ++ used_once row :: post)%list /\
        db_type self' = db_type db
  | (Ok None, self') => self' = db
  | (Raise _, _) => False
  end.
Proof.
  intros row1 row2 db.
  assert (Hnd : NoDup (map id (faqs db))).
  { apply NoDup_cons. split; [|apply NoDup_singleton].
    intros Hin. apply list_elem_of_singleton in Hin. discriminate. }
  split; [exact Hnd|]. split; [vm_compute; reflexivity|].
  exact (get_faq_by_keywords_counts_one_use db ["my"; "order"] eq_refl Hnd).
Defined.

Lemma score_lower tokens faq_keywords :
  score (map lower tokens) faq_keywords = score tokens faq_keywords.
Proof.
  unfold score.
  induction tokens as [|token tokens IH]; [done|].
  cbn [map]. rewrite !filter_cons, lower_idem.
  destruct (decide _); cbn [length]; by rewrite IH.
Qed.

Lemma faq_loop_lower tokens rows best :
  fold_left (faq_step (map lower tokens)) rows best
  = fold_left (faq_step tokens) rows best.
Proof.
  revert best. induction rows as [|row rows IH]; intros best; [done|].
  cbn [fold_left]. rewrite IH. f_equal.
  unfold faq_step. by rewrite score_lower.
Qed.

(** X21: the lookup does not depend on the letter case of the tokens: it
    returns the same record, and leaves the same database, for the tokens
    and for their lowercase forms. *)
Theorem get_faq_by_keywords_case_insensitive (self : Database.t)
    (tokens : list string) :
  get_faq_by_keywords (map lower tokens) self = get_faq_by_keywords tokens self.
Proof. unfold get_faq_by_keywords. by rewrite faq_loop_lower. Qed.

Lemma faq_loop_snoc tokens rows row :
  fold_left (faq_step tokens) (rows ++ [row]) (None, 0%nat)
  = faq_step tokens (fold_left (faq_step tokens) rows (None, 0%nat)) row.
Proof. by rewrite fold_left_app. Qed.

(** The running best score is at least the score of every row seen. *)
Lemma faq_loop_bound tokens rows :
  Forall (fun r => (score tokens (keywords r)
                    <= (fold_left (faq_step tokens) rows (None, 0%nat)).2)%nat)
         rows.
Proof.
  pose proof (faq_loop_first_best tokens rows) as Hbest.
  destruct (fold_left (faq_step tokens) rows (None, 0%nat)) as [bm bs].
  unfold first_best in Hbest. cbn [fst snd] in *.
  destruct bm as [m|].
  - destruct Hbest as (pre & row & post & -> & _ & -> & _ & Hpre & Hpost).
    apply Forall_app. split; [|apply Forall_cons; split].
    + eapply Forall_impl; [exact Hpre|]. cbn. lia.
    + done.
    + done.
  - destruct Hbest as [-> Hz]. eapply Forall_impl; [exact Hz|]. cbn. lia.
Qed.

Lemma add_faq_sqlite question answer category kws self :
  db_type self = "sqlite" ->
  add_faq question answer category kws self =
    (Ok tt,
     {| db_type := db_type self;
        faqs := faqs self ++
                [{| id := next_id (faqs self); question := question;
                    answer := answer; category := category;
                    keywords := kws; usage_count := 0 |}] |}).
Proof.
  intros Hsql. unfold add_faq, get_connection.
  by destruct (String.eqb_spec (db_type self) "sqlite").
Qed.

Lemma get_faq_by_keywords_result tokens self :
  (get_faq_by_keywords tokens self).1 =
    if String.eqb (db_type self) "sqlite"
    then Ok (fold_left (faq_step tokens) (faqs self) (None, 0%nat)).1
    else Raise (NotImplementedError "PostgreSQL support not yet implemented").
Proof.
  unfold get_faq_by_keywords, get_connection.
  destruct (String.eqb (db_type self) "sqlite"); [|done].
  by destruct (fold_left _ _ _) as [[m|] bs].
Qed.

(** X22: a record added with [add_faq] is found by a lookup that no
    earlier record matches: when every stored record scores 0 for the
    tokens and the new keywords score more, the lookup after [add_faq]
    returns the new record, with a use count of 0. *)
Theorem add_faq_then_lookup (self : Database.t) (tokens : list string)
    (question answer category : string) (kws : list string) :
  db_type self = "sqlite" ->
  Forall (fun r => score tokens (keywords r) = 0%nat) (faqs self) ->
  (0 < score tokens kws)%nat ->
  (add_faq question answer category kws self).1 = Ok tt /\
  (get_faq_by_keywords tokens
     (add_faq question answer category kws self).2).1
  = Ok (Some {| m_id := next_id (faqs self); m_question := question;
                m_answer := answer; m_category := category;
                m_usage_count := 0 |}).
Proof.
  intros Hsql Hzero Hpos.
  rewrite add_faq_sqlite by done. cbn [fst snd]. split; [done|].
  rewrite get_faq_by_keywords_result. cbn [db_type faqs].
  rewrite Hsql. cbn [String.eqb]. rewrite faq_loop_snoc.
  pose proof (faq_loop_first_best tokens (faqs self)) as Hbest.
  destruct (fold_left (faq_step tokens) (faqs self) (None, 0%nat)) as [bm bs].
  unfold first_best in Hbest. cbn [fst snd] in Hbest.
  assert (Hbs : bs = 0%nat).
  { destruct bm as [m|]; [|by destruct Hbest].
    destruct Hbest as (pre & row & post & Hrows & _ & _ & Hrow & _).
    rewrite Hrows in Hzero. apply Forall_app in Hzero as [_ Hzero].
    apply Forall_cons in Hzero as [Hzero _]. lia. }
  subst bs. unfold faq_step. cbn [fst snd keywords].
  destruct (Nat.ltb_spec 0 (score tokens kws)) as [_|?]; [done|lia].
Qed.

Lemma add_faq_then_lookup_witness :
  let db := {| db_type := "sqlite"; faqs := default_faqs |} in
  let tokens := ["gift"; "wrapping"] in
  Forall (fun r => score tokens (keywords r) = 0%nat) (faqs db) /\
  (0 < score tokens ["gift"; "wrap"])%nat /\
  (get_faq_by_keywords tokens
     (add_faq "Do you offer gift wrapping?" "Yes, at checkout." "orders"
        ["gift"; "wrap"] db).2).1
  = Ok (Some {| m_id := 6; m_question := "Do you offer gift wrapping?";
                m_answer := "Yes, at checkout."; m_category := "orders";
                m_usage_count := 0 |}).
Proof.
  intros db tokens.
  assert (Hzero : Forall (fun r => score tokens (keywords r) = 0%nat) (faqs db))
    by (repeat (constructor; [vm_compute; reflexivity|]); constructor).
  assert (Hpos : (0 < score tokens ["gift"; "wrap"])%nat) by (vm_compute; lia).
  split; [exact Hzero|]. split; [exact Hpos|].
  exact (proj2 (add_faq_then_lookup db tokens "Do you offer gift wrapping?"
                  "Yes, at checkout." "orders" ["gift"; "wrap"]
                  eq_refl Hzero Hpos)).
Defined.

(** X23: a record added later never takes over a query that a stored
    record answers at least as well: when some stored record scores at
    least what the new keywords score, the lookup returns after [add_faq]
    what it returned before. *)
Theorem add_faq_keeps_earlier_answers (self : Database.t)
    (tokens : list string) (question answer category : string)
    (kws : list string) :
  Exists (fun r => (score tokens kws <= score tokens (keywords r))%nat)
         (faqs self) ->
  (get_faq_by_keywords tokens
     (add_faq question answer category kws self).2).1
  = (get_faq_by_keywords tokens self).1.
Proof.
  intros Hex. rewrite !get_faq_by_keywords_result.
  destruct (String.eqb_spec (db_type self) "sqlite") as [Hsql|Hne].
  2:{ unfold add_faq, get_connection.
      destruct (String.eqb_spec (db_type self) "sqlite"); [done|].
      cbn [snd]. by destruct (String.eqb_spec (db_type self) "sqlite"). }
  rewrite add_faq_sqlite by done. cbn [snd db_type faqs].
  rewrite Hsql. cbn [String.eqb]. rewrite faq_loop_snoc.
  pose proof (faq_loop_bound tokens (faqs self)) as Hbound.
  destruct (fold_left (faq_step tokens) (faqs self) (None, 0%nat)) as [bm bs].
  cbn [snd] in Hbound.
  assert (Hle : (score tokens kws <= bs)%nat).
  { apply Exists_exists in Hex as (r & Hr & Hle).
    rewrite Forall_forall in Hbound. specialize (Hbound r Hr). lia. }
  unfold faq_step. cbn [fst snd keywords].
  destruct (Nat.ltb_spec bs (score tokens kws)) as [?|_]; [lia|].
  by destruct bm.
Qed.

Lemma add_faq_keeps_earlier_answers_witness :
  let row := {| id := 1; question := "How can I track my order?";
                answer := "Give us your order number.";
                category := "orders"; keywords := ["track"; "order"];
                usage_count := 0 |} in
  let db := {| db_type := "sqlite"; faqs := [row] |} in
  let tokens := ["track"; "my"; "order"] in
  Exists (fun r => (score tokens ["order"] <= score tokens (keywords r))%nat)
         (faqs db) /\
  (get_faq_by_keywords tokens
     (add_faq "Where is my order?" "On its way." "orders" ["order"] db).2).1
  = Ok (Some (match_of row)).
Proof.
  intros row db tokens.
  assert (Hex : Exists (fun r => (score tokens ["order"]
                                  <= score tokens (keywords r))%nat) (faqs db))
    by (left; vm_compute; lia).
  split; [exact Hex|].
  rewrite (add_faq_keeps_earlier_answers db tokens "Where is my order?"
             "On its way." "orders" ["order"] Hex).
  vm_compute. reflexivity.
Defined.

Lemma next_id_above rows : Forall (fun r => (id r < next_id rows)%Z) rows.
Proof.
  unfold next_id. induction rows as [|r rows IH]; [constructor|].
  cbn [foldr]. constructor; [lia|].
  eapply Forall_impl; [exact IH|]. cbn. lia.
Qed.

(** X24: [add_faq] keeps the ids unique: the new row gets an id greater
    than every id in the table, the rows already there are not touched and
    keep their order, and the new row comes last. *)
Theorem add_faq_keeps_ids_unique (self : Database.t)
    (question answer category : string) (kws : list string) :
  db_type self = "sqlite" ->
  NoDup (map id (faqs self)) ->
  let self' := (add_faq question answer category kws self).2 in
  NoDup (map id (faqs self')) /\
  (exists row, faqs self' = (faqs self ++ [row])%list /\
               Forall (fun r => (id r < id row)%Z) (faqs self) /\
               keywords row = kws /\ usage_count row = 0%Z).
Proof.
  intros Hsql Hnd self'. subst self'.
  rewrite add_faq_sqlite by done. cbn [snd faqs].
  pose proof (next_id_above (faqs self)) as Habove.
  split.
  - rewrite map_app. cbn [map id]. apply NoDup_app. split; [done|].
    split; [|apply NoDup_singleton].
    intros x Hx Hnew. apply list_elem_of_singleton in Hnew. subst x.
    apply list_elem_of_fmap in Hx as (r & Heq & Hr).
    rewrite Forall_forall in Habove. specialize (Habove r Hr). lia.
  - eexists. split; [reflexivity|]. by split.
Qed.

Lemma add_faq_keeps_ids_unique_witness :
  let row := {| id := 7; question := "Q"; answer := "A"; category := "c";
                keywords := ["k"]; usage_count := 2 |} in
  let db := {| db_type := "sqlite"; faqs := [row] |} in
  NoDup (map id (faqs db)) /\
  NoDup (map id (faqs (add_faq "Q2" "A2" "c" ["k2"] db).2)).
Proof.
  intros row db.
  assert (Hnd : NoDup (map id (faqs db))) by (apply NoDup_singleton).
  split; [exact Hnd|].
  exact (proj1 (add_faq_keeps_ids_unique db "Q2" "A2" "c" ["k2"] eq_refl Hnd)).
Defined.

End KnowledgeBaseMore.

(** ** Text turns and sessions *)

Section SessionsMore.
Import PyStr IntentRecognizer.

(** A text turn with a usable catalog, as one step of the state. *)
Lemma process_text_input_turn (bot : VoiceBot.t) (text : string)
    (h : Heap) (tape : list nat) :
  catalog_ok (ResponseGenerator.response_templates
                (VoiceBot.response_generator bot)) ->
  exists resp,
    VoiceBot.process_text_input bot text h tape =
      (Ok resp,
       {| VoiceBot.intent_recognizer := VoiceBot.intent_recognizer bot;
          VoiceBot.response_generator :=
            ResponseGenerator.self
              (recorded {| ResponseGenerator.self := VoiceBot.response_generator bot;
                           ResponseGenerator.rng := tape |}
                 (recognize_intent (VoiceBot.intent_recognizer bot) text).1
                 resp None) |},
       (analyze_query (VoiceBot.intent_recognizer bot) text h).2,
       tl tape).
Proof.
  intros Hok. unfold VoiceBot.process_text_input.
  rewrite analyze_query_unfold. cbn [a_intent a_entities a_context snd].
  set (intent := (recognize_intent (VoiceBot.intent_recognizer bot) text).1).
  set (w := {| ResponseGenerator.self := VoiceBot.response_generator bot;
               ResponseGenerator.rng := tape |}).
  pose proof (templates_for_nonempty _ intent Hok) as Hne.
  destruct (templates_for
              (ResponseGenerator.response_templates (ResponseGenerator.self w))
              intent) as [|x l] eqn:Hl; [done|].
  rewrite (generate_response_ok _ _ _ w x l) by (try apply Hok; done).
  by eexists.
Qed.

(** X25: with a usable catalog a text turn never fails: it returns a
    response, records it as one history entry under the intent of the
    text, uses one random draw, leaves the recognizer as it is and the
    context updated for the text. *)
Theorem process_text_input_records_turn (bot : VoiceBot.t) (text : string)
    (h : Heap) (tape : list nat) :
  catalog_ok (ResponseGenerator.response_templates
                (VoiceBot.response_generator bot)) ->
  exists resp,
    VoiceBot.process_text_input bot text h tape =
      (Ok resp,
       {| VoiceBot.intent_recognizer := VoiceBot.intent_recognizer bot;
          VoiceBot.response_generator :=
            ResponseGenerator.self
              (recorded {| ResponseGenerator.self := VoiceBot.response_generator bot;
                           ResponseGenerator.rng := tape |}
                 (recognize_intent (VoiceBot.intent_recognizer bot) text).1
                 resp None) |},
       (analyze_query (VoiceBot.intent_recognizer bot) text h).2,
       tl tape).
Proof. apply process_text_input_turn. Qed.

Lemma process_text_input_records_turn_witness :
  let bot := {| VoiceBot.intent_recognizer := shipped_recognizer 1%positive;
                VoiceBot.response_generator :=
                  ResponseGenerator.init (Config.load None) |} in
  catalog_ok (ResponseGenerator.response_templates
                (VoiceBot.response_generator bot)) /\
  exists resp,
    (VoiceBot.process_text_input bot "hello" ∅ [0]).1.1.1 = Ok resp.
Proof.
  intros bot. split; [exact RESPONSE_TEMPLATES_ok|].
  destruct (process_text_input_records_turn bot "hello" ∅ [0]
              RESPONSE_TEMPLATES_ok) as [resp Hrun].
  exists resp. by rewrite Hrun.
Defined.

(** X26: with a usable catalog a text session never stops on an
    exception from processing: it ends on a quit word, on a farewell or at
    the end of the input; it prints at most one response per input line,
    the history grows by exactly the printed responses, in order, and one
    random draw is used for each; a session that ends on a farewell has
    printed a response. *)
Theorem text_only_session_never_crashes (inputs : list string)
    (bot : VoiceBot.t) (h : Heap) (tape : list nat) :
  catalog_ok (ResponseGenerator.response_templates
                (VoiceBot.response_generator bot)) ->
  let '(responses, ending, bot', h', tape') :=
    VoiceBot.text_only_session inputs bot h tape in
  (forall e, ending ≠ VoiceBot.Crashed e) /\
  (length responses <= length inputs)%nat /\
  map ResponseGenerator.h_response
    (ResponseGenerator.conversation_history (VoiceBot.response_generator bot'))
  = (map ResponseGenerator.h_response
       (ResponseGenerator.conversation_history (VoiceBot.response_generator bot))
     ++ responses)%list /\
  tape' = skipn (length responses) tape /\
  (ending = VoiceBot.SaidFarewell -> responses ≠ []).
Proof.
  revert bot h tape. induction inputs as [|user_input inputs IH];
    intros bot h tape Hok; cbn [VoiceBot.text_only_session].
  - split; [done|]. split; [done|]. by rewrite app_nil_r.
  - destruct (bool_decide _).
    { split; [done|]. split; [cbn; lia|]. by rewrite app_nil_r. }
    destruct (process_text_input_turn bot user_input h tape Hok)
      as [resp ->].
    set (bot1 := {| VoiceBot.intent_recognizer := _;
                    VoiceBot.response_generator := _ |}).
    destruct (analyze_query (VoiceBot.intent_recognizer bot1) user_input _)
      as [analysis h2].
    assert (Hhist : map ResponseGenerator.h_response
                      (ResponseGenerator.conversation_history
                         (VoiceBot.response_generator bot1))
                    = (map ResponseGenerator.h_response
                         (ResponseGenerator.conversation_history
                            (VoiceBot.response_generator bot)) ++ [resp])%list).
    { subst bot1. cbn. by rewrite map_app. }
    destruct (String.eqb (a_intent analysis) "farewell").
    { split; [done|]. split; [cbn; lia|]. split; [done|].
      split; [by destruct tape|done]. }
    specialize (IH bot1 h2 (tl tape) Hok).
    destruct (VoiceBot.text_only_session inputs bot1 h2 (tl tape))
      as [[[[responses ending] bot2] h3] tape2].
    destruct IH as (Hcrash & Hlen & Hgrow & Htape & Hfare).
    split; [done|]. split; [cbn; lia|]. split.
    + rewrite Hgrow, Hhist. by rewrite <- app_assoc.
    + split; [|done]. rewrite Htape. cbn [length].
      destruct tape; [by destruct (length responses)|done].
Qed.

Lemma text_only_session_never_crashes_witness :
  let bot := {| VoiceBot.intent_recognizer := shipped_recognizer 1%positive;
                VoiceBot.response_generator :=
                  ResponseGenerator.init (Config.load None) |} in
  catalog_ok (ResponseGenerator.response_templates
                (VoiceBot.response_generator bot)) /\
  (VoiceBot.text_only_session ["hello"; "thanks, bye"; "hello again"] bot ∅
     [0; 0; 0]).1.1.1
  = (["Hello! How can I assist you today?";
      "Thank you for contacting us! Have a great day!"],
     VoiceBot.SaidFarewell) /\
  forall e,
    (VoiceBot.text_only_session ["hello"; "thanks, bye"; "hello again"] bot ∅
       [0; 0; 0]).1.1.1.2 ≠ VoiceBot.Crashed e.
Proof.
  intros bot. split; [exact RESPONSE_TEMPLATES_ok|].
  split; [vm_compute; reflexivity|].
  pose proof (text_only_session_never_crashes
                ["hello"; "thanks, bye"; "hello again"] bot ∅ [0; 0; 0]
                RESPONSE_TEMPLATES_ok) as Hsession.
  destruct (VoiceBot.text_only_session _ bot ∅ [0; 0; 0])
    as [[[[responses ending] bot'] h'] tape'].
  exact (proj1 Hsession).
Defined.

(** A text without keywords is classified [unknown] with confidence 0. *)
Lemma confidence_zero_iff_no_keyword_witness :
  no_keyword_occurs Config.INTENT_KEYWORDS (lower "Zzz") /\
  recognize_intent (shipped_recognizer 1%positive) "Zzz" = ("unknown", 0%Q).
Proof.
  assert (Hnone : no_keyword_occurs Config.INTENT_KEYWORDS (lower "Zzz"))
    by (repeat constructor).
  split; [exact Hnone|].
  destruct (confidence_zero_iff_no_keyword (shipped_recognizer 1%positive) "Zzz")
    as [Hiff Hunknown].
  apply Hunknown. apply Hiff. right. exact Hnone.
Defined.

End SessionsMore.

(** ** The prompt and the start of the bot *)

Section PromptMore.
Import PyStr IntentRecognizer ResponseGenerator AdvancedResponseGenerator.

Variable dict_repr : Entities -> string.

(** X27: when the context handed to the generative stage is the one
    [analyze_query] returns for the same text (as the web front end does),
    the line [Previous intent] of the prompt names the intent detected for
    that very text, not the one of the turn before: the prompt is the
    prompt without context with that line put before the closing
    request. *)
Theorem prompt_previous_intent_is_current (self : IntentRecognizer.t)
    (text : string) (h : Heap) (entities : option Entities) :
  let a := (analyze_query self text h).1 in
  let h' := (analyze_query self text h).2 in
  let closing := nl ++ "Generate a helpful, natural-sounding response:" in
  a_intent a ≠ "" ->
  exists opening,
    user_prompt dict_repr (a_intent a) text entities None
    = opening ++ closing /\
    user_prompt dict_repr (a_intent a) text entities
      (Some (deref h' (a_context a)))
    = opening ++ ("Previous intent: " ++ a_intent a ++ nl) ++ closing.
Proof.
  intros a h' closing Hintent. subst a h' closing.
  rewrite analyze_query_unfold in *. cbn [fst snd a_intent a_context] in *.
  set (intent := (recognize_intent self text).1) in *.
  set (c := deref (update_context self intent (extract_entities text) h)
              (context self)).
  assert (Hc : c !! "last_intent" = Some (VStr intent))
    by apply update_context_last_intent.
  unfold user_prompt. rewrite Hc.
  assert (Htruthy : context_truthy (Some c) && truthy (Some (VStr intent)) = true).
  { apply andb_true_iff. split.
    - cbn. rewrite bool_decide_eq_false_2; [done|].
      intros Hempty. by rewrite Hempty, lookup_empty in Hc.
    - cbn. by destruct (String.eqb_spec intent ""). }
  rewrite Htruthy. cbn [value_str].
  eexists. split; [reflexivity|]. by rewrite !append_assoc.
Qed.

End PromptMore.

Section StartMore.
Import PyStr IntentRecognizer.

Lemma prompt_previous_intent_is_current_witness :
  let self := shipped_recognizer 1%positive in
  let a := (analyze_query self "where is my order" ∅).1 in
  let h' := (analyze_query self "where is my order" ∅).2 in
  a_intent a ≠ "" /\
  exists opening,
    AdvancedResponseGenerator.user_prompt (fun _ => "{}") (a_intent a)
      "where is my order" None (Some (deref h' (a_context a)))
    = opening
      ++ ("Previous intent: " ++ "order_status" ++ AdvancedResponseGenerator.nl)
      ++ AdvancedResponseGenerator.nl
      ++ "Generate a helpful, natural-sounding response:".
Proof.
  intros self a h'.
  assert (Hintent : a_intent a ≠ "") by (vm_compute; discriminate).
  split; [exact Hintent|].
  destruct (prompt_previous_intent_is_current (fun _ => "{}") self
              "where is my order" ∅ None Hintent) as (opening & _ & Hprompt).
  exists opening. exact Hprompt.
Defined.

Lemma validate_cases path_exists cfg :
  (Config.validate path_exists cfg = Ok true /\
   exists path,
     Config.GOOGLE_APPLICATION_CREDENTIALS cfg = Some path /\
     path ≠ "" /\ path_exists path = true)
  \/
  ((exists msg, Config.validate path_exists cfg = Raise (ValueError msg)) /\
   (Config.GOOGLE_APPLICATION_CREDENTIALS cfg = None \/
    Config.GOOGLE_APPLICATION_CREDENTIALS cfg = Some "" \/
    exists path,
      Config.GOOGLE_APPLICATION_CREDENTIALS cfg = Some path /\
      path_exists path = false)).
Proof.
  unfold Config.validate.
  destruct (Config.GOOGLE_APPLICATION_CREDENTIALS cfg) as [path|];
    [|right; split; [by eexists|by left]].
  destruct (String.eqb_spec path "") as [->|Hpath];
    [right; split; [by eexists|right; by left]|].
  destruct (path_exists path) eqn:Hexists; cbn [negb].
  - left. split; [done|]. by exists path.
  - right. split; [by eexists|]. right; right. by exists path.
Qed.

(** X28: the bot starts exactly when the Google credentials are set to a
    path that exists and every component constructor and [os.makedirs]
    return; a start that fails raises again the first exception met, the
    [ValueError] of the validation or what a component raised; a bot that
    has started has an empty history, the tables of the configuration, and
    an empty context in a dict of its own, the objects already on the heap
    being left as they were. *)
Theorem voicebot_init_outcome (path_exists : string -> bool)
    (env : VoiceBot.startup) (cfg : Config.t) (h : Heap) :
  match VoiceBot.init path_exists env cfg h with
  | Ok (bot, h') =>
      (exists path,
          Config.GOOGLE_APPLICATION_CREDENTIALS cfg = Some path /\
          path ≠ "" /\ path_exists path = true) /\
      Forall (fun r => r = Ok tt) (VoiceBot.startup_outcomes env) /\
      h !! context (VoiceBot.intent_recognizer bot) = None /\
      deref h' (context (VoiceBot.intent_recognizer bot)) = ∅ /\
      (forall l, l ≠ context (VoiceBot.intent_recognizer bot) ->
                 h' !! l = h !! l) /\
      intent_keywords (VoiceBot.intent_recognizer bot)
      = Config.intent_keywords cfg /\
      ResponseGenerator.response_templates (VoiceBot.response_generator bot)
      = Config.response_templates cfg /\
      ResponseGenerator.conversation_history (VoiceBot.response_generator bot)
      = []
  | Raise e =>
      ((exists msg, e = ValueError msg) /\
       Config.validate path_exists cfg = Raise e /\
       (Config.GOOGLE_APPLICATION_CREDENTIALS cfg = None \/
        Config.GOOGLE_APPLICATION_CREDENTIALS cfg = Some "" \/
        exists path,
          Config.GOOGLE_APPLICATION_CREDENTIALS cfg = Some path /\
          path_exists path = false))
      \/
      (Config.validate path_exists cfg = Ok true /\
       exists before after,
         VoiceBot.startup_outcomes env = (before ++ Raise e :: after)%list /\
         Forall (fun r => r = Ok tt) before)
  end.
Proof.
  unfold VoiceBot.init, VoiceBot.startup_outcomes.
  destruct (validate_cases path_exists cfg)
    as [[-> Hcreds]|[[msg ->] Hcreds]];
    [|left; split; [by eexists|by split]].
  destruct (VoiceBot.new_SpeechToText env) as [[]|e1] eqn:H1.
  2:{ right. split; [done|]. by exists []; eexists. }
  destruct (VoiceBot.new_TextToSpeech env) as [[]|e2] eqn:H2.
  2:{ right. split; [done|].
      exists [Ok tt]; eexists. split; [done|]. by repeat constructor. }
  unfold init, alloc.
  destruct (VoiceBot.new_AudioRecorder env) as [[]|e3] eqn:H3.
  2:{ right. split; [done|].
      exists [Ok tt; Ok tt]; eexists. split; [done|]. by repeat constructor. }
  destruct (VoiceBot.new_AudioPlayer env) as [[]|e4] eqn:H4.
  2:{ right. split; [done|].
      exists [Ok tt; Ok tt; Ok tt]; eexists. split; [done|]. by repeat constructor. }
  destruct (VoiceBot.makedirs env) as [[]|e5] eqn:H5.
  2:{ right. split; [done|].
      exists [Ok tt; Ok tt; Ok tt; Ok tt], []. split; [done|].
      by repeat constructor. }
  cbn [context VoiceBot.intent_recognizer VoiceBot.response_generator
       intent_keywords].
  split; [done|]. split; [by repeat constructor|].
  split; [apply not_elem_of_dom, is_fresh|].
  split; [apply deref_insert|].
  split; [intros l Hl; by rewrite lookup_insert_ne|done].
Qed.

(** A component that cannot be created stops the start, although the
    configuration is valid: the bot is not built and the exception of the
    component reaches the caller. *)
Example failing_component_stops_start :
  let env := {| VoiceBot.new_SpeechToText := Ok tt;
                VoiceBot.new_TextToSpeech := Ok tt;
                VoiceBot.new_AudioRecorder := Raise (ServiceError "AudioRecorder");
                VoiceBot.new_AudioPlayer := Ok tt;
                VoiceBot.makedirs := Ok tt |} in
  let cfg := Config.load (Some "credentials.json") in
  Config.validate (fun _ => true) cfg = Ok true /\
  VoiceBot.init (fun _ => true) env cfg ∅
  = Raise (ServiceError "AudioRecorder").
Proof. by split. Qed.

End StartMore.
